(** * BananaLens: filter settings, collection store, compare slider and export

    A shallow embedding of the application logic of [App.tsx],
    [components/BeforeAfter.tsx] and [services/geminiService.ts].

    Conventions of the embedding.
    - The name of a file, of an item and of a download is a sequence of
      UTF-16 code units ([Js.codeUnits]), on which [\s] is given exactly;
      [toLowerCase] is the engine's and comes with the browser.  The other
      strings (URLs, ids, messages) are [string]s.
    - A number stored in a settings object is held as the text
      [Number.prototype.toString] gives for it: the code stores such
      numbers and prints them, and does nothing else with them.  Pixel
      coordinates of the compare slider are rationals, with the rounding
      of every arithmetic operation left as a parameter.
    - An object literal that is shared by reference (a settings object)
      lives in a store; React state and the collection hold its address.
    - Whatever the browser, the clock, the random generator or the remote
      model decide is an explicit argument of the handler that asks. *)

From Stdlib Require Import ZArith QArith Qminmax Lqa String Ascii List DecimalString.
From stdpp Require Import gmap strings list fin_maps.

Local Open Scope string_scope.
Local Open Scope list_scope.

(** ** JavaScript values, strings and objects *)

Module Js.

Inductive value : Type :=
| Undefined
| Null
| Bool (b : bool)
| Num (text : string)
| Str (s : string).

(** [Number.prototype.toString] on an integer below 10^21 in absolute
    value: decimal digits, with a leading minus sign below zero.  The
    handlers apply it to array lengths and loop counters (below 2^32)
    and to [Date.now()] (a time value, at most 8.64 * 10^15). *)
Definition showZ (n : Z) : string := NilZero.string_of_int (Z.to_int n).

(** The conversion a template literal applies to an interpolated value. *)
Definition toString (v : value) : string :=
  match v with
  | Undefined => "undefined"
  | Null => "null"
  | Bool true => "true"
  | Bool false => "false"
  | Num text => text
  | Str s => s
  end.

(** Truthiness of a [string | null] state variable: [null] and the empty
    string are falsy. *)
Definition truthyStr (o : option string) : option string :=
  match o with
  | Some "" => None
  | Some s => Some s
  | None => None
  end.

(** An object as the finite map of its own enumerable properties. *)
Abbreviation object := (gmap string value).

(** Property read [o.k]: a missing property reads as [undefined]. *)
Definition get (o : object) (k : string) : value :=
  default Undefined (o !! k).

(** Object spread [{...a, ...b}]: the properties of [b] win. *)
Definition spread (a b : object) : object := b ∪ a.

(** [s.split(sep)] for a one-character separator. *)
Fixpoint split (sep : ascii) (s : string) : list string :=
  match s with
  | EmptyString => [""]
  | String c s' =>
      if Ascii.eqb c sep then "" :: split sep s'
      else match split sep s' with
           | x :: xs => String c x :: xs
           | [] => [String c ""]
           end
  end.

(** Array read [a[i]] of a string array. *)
Definition index (a : list string) (i : nat) : value :=
  from_option Str Undefined (a !! i).

(** [s.slice(from, to)] for [0 <= from <= to]. *)
Definition slice (from to : nat) (s : string) : string :=
  substring from (to - from) s.

(** A string as its sequence of UTF-16 code units. *)
Abbreviation codeUnits := (list N).

(** The code units of a string literal of the source (ASCII). *)
Definition lit (s : string) : codeUnits :=
  map N_of_ascii (list_ascii_of_string s).

(** The class [\s] of a regular expression without the [u] flag: TAB,
    LF, VT, FF, CR, SPACE, U+00A0, U+1680, U+2000 to U+200A, U+2028,
    U+2029, U+202F, U+205F, U+3000 and U+FEFF. *)
Definition isSpace (u : N) : bool :=
  ((9 <=? u) && (u <=? 13) || (u =? 32) || (u =? 160) || (u =? 5760)
   || (8192 <=? u) && (u <=? 8202) || (u =? 8232) || (u =? 8233)
   || (u =? 8239) || (u =? 8287) || (u =? 12288) || (u =? 65279))%N.

(** [s.replace(/\s+/g, r)]: every maximal run of white space becomes one
    copy of [r].  [inRun] tells that the previous code unit was white
    space, so that the current run has already been replaced. *)
Fixpoint replaceSpaceRuns (r : codeUnits) (inRun : bool) (s : codeUnits)
    : codeUnits :=
  match s with
  | [] => []
  | u :: s' =>
      if isSpace u then
        if inRun then replaceSpaceRuns r true s'
        else r ++ replaceSpaceRuns r true s'
      else u :: replaceSpaceRuns r false s'
  end.

(** [s.split(sep)] on code units, for a one-unit separator. *)
Fixpoint splitUnits (sep : N) (s : codeUnits) : list codeUnits :=
  match s with
  | [] => [[]]
  | u :: s' =>
      if (u =? sep)%N then [] :: splitUnits sep s'
      else match splitUnits sep s' with
           | x :: xs => (u :: x) :: xs
           | [] => [[u]]
           end
  end.

(** Membership of a code unit in a string. *)
Fixpoint occurs (p : ascii → bool) (s : string) : bool :=
  match s with
  | EmptyString => false
  | String c s' => p c || occurs p s'
  end.

End Js.

(** ** types.ts *)

Inductive ViewMode : Type := HOME | COLLECTION | IMPORT | EXPORT.

(** Addresses of settings objects. *)
Abbreviation loc := positive.

Abbreviation store := (gmap loc Js.object).

Record PhotoItem : Type := mkPhotoItem {
  id : string;
  originalUrl : string;
  name : Js.codeUnits;
  timestamp : Z;
  settings : loc
}.

Record AnalysisResult : Type := mkAnalysisResult {
  reasoning : string;
  suggestedSettings : Js.object
}.

(** [defaultSettings], the module-level constant of App.tsx. *)
Definition defaultSettings : Js.object :=
  {[ "brightness" := Js.Num "100"; "contrast" := Js.Num "100";
     "saturation" := Js.Num "100"; "sepia" := Js.Num "0";
     "grayscale" := Js.Num "0"; "hueRotate" := Js.Num "0";
     "blur" := Js.Num "0"; "warmth" := Js.Num "0" ]}.

(** The address at which the one [defaultSettings] object lives. *)
Definition defaultSettingsRef : loc := 1%positive.

(** Dereference of a settings address. *)
Definition deref (h : store) (l : loc) : Js.object := default ∅ (h !! l).

(** Allocation of a fresh object literal. *)
Definition alloc (h : store) (o : Js.object) : store * loc :=
  let l := fresh (dom h) in (<[l := o]> h, l).

(** ** What the handlers ask of their environment *)

(** A [File] together with what [FileReader.readAsDataURL] makes of it:
    [Some url] is the [result] seen by [onloadend], [None] is [onerror]. *)
Record File : Type := mkFile {
  fileName : Js.codeUnits;
  fileType : string;
  readAsDataURL : option string
}.

(** The values [Date.now()] and [Math.random().toString()] return while
    one [PhotoItem] literal is built. *)
Record Stamp : Type := mkStamp {
  nowForId : Z;
  randomDigits : string;
  nowForTimestamp : Z
}.

(** The browser at export time: whether the image behind a URL fires
    [onload] (otherwise [onerror]), whether [getContext('2d')] yields a
    context (otherwise [null]), and the engine's
    [String.prototype.toLowerCase], whose Unicode case tables are not
    part of the repository. *)
Record Browser : Type := mkBrowser {
  imageLoads : string → bool;
  context2d : bool;
  toLowerCase : Js.codeUnits → Js.codeUnits
}.

(** What [ai.models.generateContent] does: the promise is rejected, or it
    is fulfilled with a response whose [text] may be [undefined]. *)
Inductive GenOutcome : Type :=
| Rejected (reason : string)
| Responded (text : option string).

(** A part of the request's [contents]. *)
Inductive Part : Type :=
| InlineData (mimeType : string) (data : Js.value)
| Text (instruction : string) (styleReferenceNote : bool).

Record Download : Type := mkDownload {
  download : Js.codeUnits;
  canvasFilter : string;
  source : string
}.

(** Effects visible outside the React state. *)
Inductive Event : Type :=
| EvGenerateContent (model : string) (parts : list Part)
| EvConsoleError (label : string)
| EvAlert (message : string)
| EvDownload (d : Download)
| EvDelay (ms : Z).

Inductive Error : Type :=
| RequestError (reason : string)
| SyntaxError (text : string)
| NoResponseText.

Definition isGenerateContent (e : Event) : bool :=
  match e with EvGenerateContent _ _ => true | _ => false end.

Definition isDelay (e : Event) : bool :=
  match e with EvDelay _ => true | _ => false end.

(** The downloads of a trace, in the order they were triggered. *)
Definition downloads (log : list Event) : list Download :=
  omap (λ e, match e with EvDownload d => Some d | _ => None end) log.

(** ** services/geminiService.ts *)

(** [fileToGenerativePart]: [None] when the promise is rejected, else the
    value it resolves to, [result.split(',')[1]]. *)
Definition fileToGenerativePart (file : File) : option Js.value :=
  match readAsDataURL file with
  | Some base64String => Some (Js.index (Js.split "," base64String) 1)
  | None => None
  end.

Definition truthy (v : Js.value) : bool :=
  match v with
  | Js.Undefined | Js.Null => false
  | Js.Bool b => b
  | Js.Num text => negb (String.eqb text "0" || String.eqb text "NaN")
  | Js.Str s => negb (String.eqb s "")
  end.

Section Service.

(** [JSON.parse] read at the type [AnalysisResult]; [None] when it throws. *)
Variable JSON_parse : string → option AnalysisResult.

Definition autoInstruction : string :=
  "Auto-enhance this image based on its content (Cast a spell).".

Definition requestParts (imageBase64 : Js.value) (userPrompt : string)
    (referenceImageBase64 : Js.value) : list Part :=
  let instruction :=
    if String.eqb userPrompt "" then autoInstruction else userPrompt in
  if truthy referenceImageBase64 then
    [InlineData "image/jpeg" imageBase64;
     InlineData "image/jpeg" referenceImageBase64;
     Text instruction true]
  else
    [InlineData "image/jpeg" imageBase64; Text instruction false].

(** The [try] block: the awaited call, the test of [response.text], the
    parse, and the [throw] that ends it. *)
Definition tryAnalyze (o : GenOutcome) : Error + AnalysisResult :=
  match o with
  | Rejected reason => inl (RequestError reason)
  | Responded text =>
      match Js.truthyStr text with
      | Some t =>
          match JSON_parse t with
          | Some r => inr r
          | None => inl (SyntaxError t)
          end
      | None => inl NoResponseText
      end
  end.

(** [analyzeImageAndGetSettings]: one request; an error of the [try]
    block is logged and thrown again. *)
Definition analyzeImageAndGetSettings (imageBase64 : Js.value)
    (userPrompt : string) (referenceImageBase64 : Js.value)
    (o : GenOutcome) : (Error + AnalysisResult) * list Event :=
  let request :=
    EvGenerateContent "gemini-2.5-flash"
      (requestParts imageBase64 userPrompt referenceImageBase64) in
  match tryAnalyze o with
  | inr result => (inr result, [request])
  | inl error => (inl error, [request; EvConsoleError "Gemini Analysis Error:"])
  end.

End Service.

(** ** components/BeforeAfter.tsx: the filter string *)

Definition getFilterString (s : Js.object) : string :=
  "brightness(" +:+ Js.toString (Js.get s "brightness") +:+
  "%) contrast(" +:+ Js.toString (Js.get s "contrast") +:+
  "%) saturate(" +:+ Js.toString (Js.get s "saturation") +:+
  "%) sepia(" +:+ Js.toString (Js.get s "sepia") +:+
  "%) grayscale(" +:+ Js.toString (Js.get s "grayscale") +:+
  "%) hue-rotate(" +:+ Js.toString (Js.get s "hueRotate") +:+
  "deg) blur(" +:+ Js.toString (Js.get s "blur") +:+ "px)".

(** ** App.tsx: state *)

Record AppState : Type := mkAppState {
  view : ViewMode;
  currentImage : option string;
  currentSettings : loc;
  isProcessing : bool;
  aiReasoning : string;
  showCompare : bool;
  promptText : string;
  refImage : option string;
  collection : list PhotoItem;
  exportSelection : gset string;
  heap : store
}.

Definition setView (v : ViewMode) (st : AppState) : AppState :=
  mkAppState v (currentImage st) (currentSettings st) (isProcessing st)
    (aiReasoning st) (showCompare st) (promptText st) (refImage st)
    (collection st) (exportSelection st) (heap st).

Definition setCurrentImage (i : option string) (st : AppState) : AppState :=
  mkAppState (view st) i (currentSettings st) (isProcessing st)
    (aiReasoning st) (showCompare st) (promptText st) (refImage st)
    (collection st) (exportSelection st) (heap st).

Definition setCurrentSettings (l : loc) (st : AppState) : AppState :=
  mkAppState (view st) (currentImage st) l (isProcessing st)
    (aiReasoning st) (showCompare st) (promptText st) (refImage st)
    (collection st) (exportSelection st) (heap st).

Definition setIsProcessing (b : bool) (st : AppState) : AppState :=
  mkAppState (view st) (currentImage st) (currentSettings st) b
    (aiReasoning st) (showCompare st) (promptText st) (refImage st)
    (collection st) (exportSelection st) (heap st).

Definition setAiReasoning (r : string) (st : AppState) : AppState :=
  mkAppState (view st) (currentImage st) (currentSettings st) (isProcessing st)
    r (showCompare st) (promptText st) (refImage st)
    (collection st) (exportSelection st) (heap st).

Definition setShowCompare (b : bool) (st : AppState) : AppState :=
  mkAppState (view st) (currentImage st) (currentSettings st) (isProcessing st)
    (aiReasoning st) b (promptText st) (refImage st)
    (collection st) (exportSelection st) (heap st).

Definition setPromptText (p : string) (st : AppState) : AppState :=
  mkAppState (view st) (currentImage st) (currentSettings st) (isProcessing st)
    (aiReasoning st) (showCompare st) p (refImage st)
    (collection st) (exportSelection st) (heap st).

Definition setRefImage (r : option string) (st : AppState) : AppState :=
  mkAppState (view st) (currentImage st) (currentSettings st) (isProcessing st)
    (aiReasoning st) (showCompare st) (promptText st) r
    (collection st) (exportSelection st) (heap st).

Definition setCollection (c : list PhotoItem) (st : AppState) : AppState :=
  mkAppState (view st) (currentImage st) (currentSettings st) (isProcessing st)
    (aiReasoning st) (showCompare st) (promptText st) (refImage st)
    c (exportSelection st) (heap st).

Definition setExportSelection (s : gset string) (st : AppState) : AppState :=
  mkAppState (view st) (currentImage st) (currentSettings st) (isProcessing st)
    (aiReasoning st) (showCompare st) (promptText st) (refImage st)
    (collection st) s (heap st).

Definition setHeap (h : store) (st : AppState) : AppState :=
  mkAppState (view st) (currentImage st) (currentSettings st) (isProcessing st)
    (aiReasoning st) (showCompare st) (promptText st) (refImage st)
    (collection st) (exportSelection st) h.

(** The state of a freshly mounted [App]. *)
Definition initialState : AppState :=
  mkAppState HOME None defaultSettingsRef false "" false "" None [] ∅
    {[ defaultSettingsRef := defaultSettings ]}.

(** The template literal [`data:${file.type};base64,${base64}`]. *)
Definition dataUrl (file : File) (base64 : Js.value) : string :=
  "data:" +:+ fileType file +:+ ";base64," +:+ Js.toString base64.

(** ** App.tsx: editor handlers *)

Definition handleImageSelect (file : File) (st : AppState)
    : AppState * list Event :=
  match fileToGenerativePart file with
  | Some base64 =>
      (setShowCompare false
         (setAiReasoning ""
            (setCurrentSettings defaultSettingsRef
               (setCurrentImage (Some (dataUrl file base64)) st))), [])
  | None => (st, [EvConsoleError "Error loading image"])
  end.

Definition handleResetImage (st : AppState) : AppState :=
  setRefImage None
    (setPromptText ""
       (setShowCompare false
          (setAiReasoning ""
             (setCurrentSettings defaultSettingsRef
                (setCurrentImage None st))))).

(** [handleRefImageSelect] on the first selected file, if any; a rejected
    read is not caught and leaves the state alone. *)
Definition handleRefImageSelect (files : list File) (st : AppState)
    : AppState :=
  match files with
  | file :: _ =>
      match fileToGenerativePart file with
      | Some base64 => setRefImage (Some (dataUrl file base64)) st
      | None => st
      end
  | [] => st
  end.

Definition spellFizzled : string :=
  "Oops! The spell fizzled. Please try again.".

Section Editor.

Variable JSON_parse : string → option AnalysisResult.

(** The updater [prev => ({...prev, ...result.suggestedSettings})] applied
    to the settings state: the object literal is a new object. *)
Definition mergeSuggested (result : AnalysisResult) (st : AppState)
    : AppState :=
  let prev := deref (heap st) (currentSettings st) in
  let '(h, l) := alloc (heap st) (Js.spread prev (suggestedSettings result)) in
  setCurrentSettings l (setHeap h st).

Definition handleCastSpell (o : GenOutcome) (st : AppState)
    : AppState * list Event :=
  match Js.truthyStr (currentImage st) with
  | None => (st, [])
  | Some image =>
      let st1 :=
        setAiReasoning
          "Nano Banana is analyzing histogram, exposure, and composition..."
          (setIsProcessing true st) in
      let cleanBase64 := Js.index (Js.split "," image) 1 in
      let cleanRefBase64 :=
        match Js.truthyStr (refImage st) with
        | Some ref => Js.index (Js.split "," ref) 1
        | None => Js.Undefined
        end in
      let '(outcome, log) :=
        analyzeImageAndGetSettings JSON_parse cleanBase64 (promptText st)
          cleanRefBase64 o in
      match outcome with
      | inr result =>
          (setIsProcessing false
             (setShowCompare false
                (setAiReasoning (reasoning result)
                   (mergeSuggested result st1))), log)
      | inl error =>
          (setIsProcessing false (setAiReasoning spellFizzled st1),
           log ++ [EvConsoleError "AI Error"])
      end
  end.

(** The two halves of [handleCastSpell] around its [await]: what it does
    to the state before the request is sent, and what it does to the
    state it finds when the request settles.  The second half reads no
    state variable of the closure: it only calls setters, the one for
    the settings with an updater. *)
Definition beginCastSpell (st : AppState) : AppState :=
  setAiReasoning
    "Nano Banana is analyzing histogram, exposure, and composition..."
    (setIsProcessing true st).

Definition settleCastSpell (o : GenOutcome) (st : AppState) : AppState :=
  match tryAnalyze JSON_parse o with
  | inr result =>
      setIsProcessing false
        (setShowCompare false
           (setAiReasoning (reasoning result) (mergeSuggested result st)))
  | inl error => setIsProcessing false (setAiReasoning spellFizzled st)
  end.

End Editor.

(** ** App.tsx: collection and export handlers *)

Definition handleSaveToCollection (t : Stamp) (st : AppState)
    : AppState * list Event :=
  match Js.truthyStr (currentImage st) with
  | None => (st, [])
  | Some image =>
      let newItem :=
        {| id := Js.showZ (nowForId t) +:+ Js.slice 2 6 (randomDigits t);
           originalUrl := image;
           name := Js.lit ("Photo " +:+
                     Js.showZ (Z.of_nat (length (collection st) + 1)));
           timestamp := nowForTimestamp t;
           settings := currentSettings st |} in
      (setCollection (newItem :: collection st) st,
       [EvAlert "Saved to collection!"])
  end.

(** The template literal assigned to [ctx.filter]. *)
Definition exportFilter (s : Js.object) : string :=
  "brightness(" +:+ Js.toString (Js.get s "brightness") +:+
  "%) contrast(" +:+ Js.toString (Js.get s "contrast") +:+
  "%) saturate(" +:+ Js.toString (Js.get s "saturation") +:+
  "%) sepia(" +:+ Js.toString (Js.get s "sepia") +:+
  "%) grayscale(" +:+ Js.toString (Js.get s "grayscale") +:+
  "%) hue-rotate(" +:+ Js.toString (Js.get s "hueRotate") +:+
  "deg) blur(" +:+ Js.toString (Js.get s "blur") +:+ "px)".

(** The value of [link.download]. *)
Definition downloadName (b : Browser) (itemName : Js.codeUnits)
    : Js.codeUnits :=
  Js.lit "bananalens-"
  ++ toLowerCase b (Js.replaceSpaceRuns (Js.lit "-") false itemName)
  ++ Js.lit ".png".

(** [processAndDownloadImage]: the promise always resolves; the trace is
    what happened before it did. *)
Definition processAndDownloadImage (b : Browser) (h : store)
    (item : PhotoItem) : list Event :=
  if imageLoads b (originalUrl item) then
    if context2d b then
      let s := deref h (settings item) in
      [EvDownload {| download := downloadName b (name item);
                     canvasFilter := exportFilter s;
                     source := originalUrl item |}]
    else []
  else [].

Definition handleSingleExport (b : Browser) (t : Z) (st : AppState)
    : list Event :=
  match Js.truthyStr (currentImage st) with
  | None => []
  | Some image =>
      let tempItem :=
        {| id := "temp"; originalUrl := image; name := Js.lit "edit";
           timestamp := t; settings := currentSettings st |} in
      processAndDownloadImage b (heap st) tempItem
  end.

(** The [for ... of] loop of [handleBatchExport], with its counter. *)
Fixpoint exportLoop (b : Browser) (h : store) (itemsToExport : list PhotoItem)
    (processed : nat) (log : list Event) : nat * list Event :=
  match itemsToExport with
  | [] => (processed, log)
  | item :: rest =>
      exportLoop b h rest (S processed)
        (log ++ processAndDownloadImage b h item ++ [EvDelay 500])
  end.

Definition handleBatchExport (b : Browser) (st : AppState)
    : AppState * list Event :=
  if decide (size (exportSelection st) = 0) then (st, [])
  else
    let itemsToExport :=
      filter (λ item, id item ∈ exportSelection st) (collection st) in
    let '(processed, log) := exportLoop b (heap st) itemsToExport 0 [] in
    (setExportSelection ∅ st,
     log ++ [EvAlert ("Exported " +:+ Js.showZ (Z.of_nat processed) +:+
                      " photos.")]).

(** The name given to an imported file:
    [file.name.split('.')[0] || `Photo ${collection.length + i + 1}`]. *)
Definition importName (collectionLength i : nat) (file : File)
    : Js.codeUnits :=
  match Js.splitUnits 46 (fileName file) with
  | [] :: _ | [] =>
      Js.lit ("Photo " +:+ Js.showZ (Z.of_nat (collectionLength + i + 1)))
  | stem :: _ => stem
  end.

(** The [for] loop of [handleBatchImport] from index [i] on; a file comes
    with the clock and random values its item would use. *)
Fixpoint importLoop (collectionLength i : nat) (files : list (File * Stamp))
    (newItems : list PhotoItem) (log : list Event)
    : list PhotoItem * list Event :=
  match files with
  | [] => (newItems, log)
  | (file, t) :: rest =>
      match fileToGenerativePart file with
      | Some base64 =>
          importLoop collectionLength (S i) rest
            (newItems ++
             [{| id := Js.showZ (nowForId t) +:+
                       Js.slice 2 8 (randomDigits t) +:+
                       Js.showZ (Z.of_nat i);
                 originalUrl := dataUrl file base64;
                 name := importName collectionLength i file;
                 timestamp := nowForTimestamp t;
                 settings := defaultSettingsRef |}])
            log
      | None =>
          importLoop collectionLength (S i) rest newItems
            (log ++ [EvConsoleError "Failed to import file"])
      end
  end.

(** [handleBatchImport]; [collectionLength] is the [collection.length] the
    callback closed over. *)
Definition handleBatchImport (collectionLength : nat)
    (files : list (File * Stamp)) (st : AppState) : AppState * list Event :=
  let '(newItems, log) := importLoop collectionLength 0 files [] [] in
  (setView COLLECTION (setCollection (newItems ++ collection st) st),
   log ++ [EvAlert ("Imported " +:+ Js.showZ (Z.of_nat (length newItems)) +:+
                    " photos to your collection.")]).

Definition toggleExportSelection (x : string) (exportSelection : gset string)
    : gset string :=
  let newSet := exportSelection in
  if decide (x ∈ newSet) then newSet ∖ {[ x ]} else newSet ∪ {[ x ]}.

(** The [Edit] button of a collection entry. *)
Definition loadItem (item : PhotoItem) (st : AppState) : AppState :=
  setView HOME
    (setCurrentSettings (settings item)
       (setCurrentImage (Some (originalUrl item)) st)).

(** ** App.tsx as a reducer *)

(** One constructor per handler reachable from the rendered views, with
    what that handler's run gets from its environment. *)
Inductive Action : Type :=
| ImageSelect (file : File)
| ResetImage
| RefImageSelect (files : list File)
| ClearRefImage
| TypePrompt (text : string)
| CastSpell (o : GenOutcome)
| ToggleCompare
| SaveToCollection (t : Stamp)
| SingleExport (b : Browser) (t : Z)
| BatchExport (b : Browser)
| BatchImport (files : list (File * Stamp))
| ToggleExport (x : string)
| EditItem (i : nat)
| Navigate (v : ViewMode).

Section Reducer.

Variable JSON_parse : string → option AnalysisResult.

Definition step (a : Action) (st : AppState) : AppState * list Event :=
  match a with
  | ImageSelect file => handleImageSelect file st
  | ResetImage => (handleResetImage st, [])
  | RefImageSelect files => (handleRefImageSelect files st, [])
  | ClearRefImage => (setRefImage None st, [])
  | TypePrompt text => (setPromptText text st, [])
  | CastSpell o => handleCastSpell JSON_parse o st
  | ToggleCompare => (setShowCompare (negb (showCompare st)) st, [])
  | SaveToCollection t => handleSaveToCollection t st
  | SingleExport b t => (st, handleSingleExport b t st)
  | BatchExport b => handleBatchExport b st
  | BatchImport files => handleBatchImport (length (collection st)) files st
  | ToggleExport x =>
      (setExportSelection (toggleExportSelection x (exportSelection st)) st, [])
  | EditItem i =>
      match collection st !! i with
      | Some item => (loadItem item st, [])
      | None => (st, [])
      end
  | Navigate v => (setView v st, [])
  end.

(** A session: the actions one after the other, traces concatenated. *)
Fixpoint run (actions : list Action) (st : AppState) : AppState * list Event :=
  match actions with
  | [] => (st, [])
  | a :: rest =>
      let '(st1, log1) := step a st in
      let '(st2, log2) := run rest st1 in
      (st2, log1 ++ log2)
  end.

End Reducer.

(** ** components/BeforeAfter.tsx: the compare slider *)

Module BeforeAfter.

(** A JavaScript number that is a rational, or is not finite (NaN or an
    infinity). *)
Inductive number : Type :=
| Finite (q : Q)
| NonFinite.

(** What [getBoundingClientRect] returns, as far as the handlers read it. *)
Record DOMRect : Type := mkDOMRect {
  left : Q;
  width : Q
}.

Record Props : Type := mkProps {
  isCompareActive : bool;
  containerRef : option DOMRect
}.

Record State : Type := mkState {
  sliderPosition : number;
  isResizing : bool
}.

Definition initial : State := mkState (Finite 50) false.

Definition handleMouseDown (p : Props) (st : State) : State :=
  if isCompareActive p then mkState (sliderPosition st) true else st.

Definition handleMouseUp (st : State) : State :=
  mkState (sliderPosition st) false.

Section Arithmetic.

(** Rounding of an exact result to a representable number. *)
Variable rnd : Q → Q.

(** [a / b]: a zero divisor gives NaN or an infinity. *)
Definition divide (a b : Q) : number :=
  if Qeq_bool b 0 then NonFinite else Finite (rnd (a / b)).

Definition times (n : number) (k : Q) : number :=
  match n with
  | Finite q => Finite (rnd (q * k))
  | NonFinite => NonFinite
  end.

(** The body shared by both move handlers once the guard has passed. *)
Definition positionFor (clientX : Q) (rect : DOMRect) : number :=
  let x := Qmax 0 (Qmin (rnd (clientX - left rect)) (width rect)) in
  times (divide x (width rect)) 100.

Definition handleMouseMove (clientX : Q) (p : Props) (st : State) : State :=
  match containerRef p with
  | Some rect =>
      if negb (isResizing st) || negb (isCompareActive p) then st
      else mkState (positionFor clientX rect) (isResizing st)
  | None => st
  end.

(** [touches] are the [clientX] of [e.touches]; reading [touches[0]] of
    an empty list throws and leaves the state alone. *)
Definition handleTouchMove (touches : list Q) (p : Props) (st : State)
    : State :=
  match containerRef p with
  | Some rect =>
      if negb (isResizing st) || negb (isCompareActive p) then st
      else match touches with
           | clientX :: _ => mkState (positionFor clientX rect) (isResizing st)
           | [] => st
           end
  | None => st
  end.

End Arithmetic.

(** A slider position between 0 and 100. *)
Definition inRange (n : number) : Prop :=
  match n with
  | Finite q => (0 <= q /\ q <= 100)%Q
  | NonFinite => False
  end.

End BeforeAfter.

(** * Specification-level definitions and sample data *)

(** One CSS filter function, [fn(arg unit)]. *)
Definition cssFunction (fn : string) (arg : Js.value) (unit : string) : string :=
  fn +:+ "(" +:+ Js.toString arg +:+ unit +:+ ")".

(** The filter functions in the order the specification lists them,
    separated by one space. *)
Definition filterSpec (s : Js.object) : string :=
  String.concat " "
    [cssFunction "brightness" (Js.get s "brightness") "%";
     cssFunction "contrast" (Js.get s "contrast") "%";
     cssFunction "saturate" (Js.get s "saturation") "%";
     cssFunction "sepia" (Js.get s "sepia") "%";
     cssFunction "grayscale" (Js.get s "grayscale") "%";
     cssFunction "hue-rotate" (Js.get s "hueRotate") "deg";
     cssFunction "blur" (Js.get s "blur") "px"].

(** The settings of the specification's example. *)
Definition exampleSettings : Js.object :=
  {[ "brightness" := Js.Num "120"; "contrast" := Js.Num "110";
     "saturation" := Js.Num "90"; "sepia" := Js.Num "0";
     "grayscale" := Js.Num "0"; "hueRotate" := Js.Num "0";
     "blur" := Js.Num "0" ]}.

Definition exampleFilter : string :=
  "brightness(120%) contrast(110%) saturate(90%) sepia(0%) grayscale(0%) hue-rotate(0deg) blur(0px)".

(** Whether a name begins with white space. *)
Definition startsWithSpace (s : Js.codeUnits) : bool :=
  match s with
  | u :: _ => Js.isSpace u
  | [] => false
  end.

(** A run of code units that are all white space. *)
Definition allSpace (s : Js.codeUnits) : Prop :=
  Forall (λ u, Js.isSpace u = true) s.

(** [Hyphenated s t]: [t] is [s] with every maximal run of white space
    replaced by one hyphen and every other code unit kept. *)
Inductive Hyphenated : Js.codeUnits → Js.codeUnits → Prop :=
| hyph_end : Hyphenated [] []
| hyph_keep (u : N) (s t : Js.codeUnits) :
    Js.isSpace u = false → Hyphenated s t → Hyphenated (u :: s) (u :: t)
| hyph_run (run s t : Js.codeUnits) :
    run ≠ [] → allSpace run → startsWithSpace s = false →
    Hyphenated s t → Hyphenated (run ++ s) (Js.lit "-" ++ t).

(** The lowercase, hyphenated form of a name: the engine's lower case of
    the hyphenated name. *)
Definition SlugOf (b : Browser) (itemName slug : Js.codeUnits) : Prop :=
  ∃ hyphenated : Js.codeUnits,
    Hyphenated itemName hyphenated ∧ slug = toLowerCase b hyphenated.

(** The ways the suggestion call fails: the request is rejected, the
    response has no text or an empty one, or the text does not parse. *)
Definition aiFails (JSON_parse : string → option AnalysisResult)
    (o : GenOutcome) : Prop :=
  match o with
  | Rejected _ => True
  | Responded None => True
  | Responded (Some text) => text = "" ∨ JSON_parse text = None
  end.

(** The number of requests sent to the model in a trace. *)
Definition requestCount (log : list Event) : nat :=
  length (List.filter isGenerateContent log).

(** A file whose read succeeds. *)
Definition readable (f : File * Stamp) : bool :=
  match readAsDataURL f.1 with
  | Some _ => true
  | None => false
  end.

(** [importedFrom item f]: the item was built from the data read from
    [f], at the clock value that came with [f], with default settings. *)
Definition importedFrom (item : PhotoItem) (f : File * Stamp) : Prop :=
  ∃ base64 : Js.value,
    fileToGenerativePart f.1 = Some base64
    ∧ originalUrl item = dataUrl f.1 base64
    ∧ timestamp item = nowForTimestamp f.2
    ∧ settings item = defaultSettingsRef.

Definition isImportError (e : Event) : bool :=
  match e with
  | EvConsoleError "Failed to import file" => true
  | _ => false
  end.

(** The download an item gives when its image loads. *)
Definition downloadOf (b : Browser) (h : store) (item : PhotoItem)
    : Download :=
  {| download := downloadName b (name item);
     canvasFilter := getFilterString (deref h (settings item));
     source := originalUrl item |}.

(** An item that the browser can draw and export. *)
Definition exportable (b : Browser) (item : PhotoItem) : bool :=
  imageLoads b (originalUrl item) && context2d b.

(** The items of the collection whose id is in the selection. *)
Definition selectedItems (st : AppState) : list PhotoItem :=
  filter (λ item, id item ∈ exportSelection st) (collection st).

(** The segment of the trace that belongs to one exported item. *)
Definition exportSegment (b : Browser) (h : store) (item : PhotoItem)
    : list Event :=
  processAndDownloadImage b h item ++ [EvDelay 500].

Definition exportedAlert (n : nat) : Event :=
  EvAlert ("Exported " +:+ Js.showZ (Z.of_nat n) +:+ " photos.").

Definition importedAlert (n : nat) : Event :=
  EvAlert ("Imported " +:+ Js.showZ (Z.of_nat n) +:+
           " photos to your collection.").

(** [extends st st']: every settings object of [st] is still there,
    unchanged, in [st'], and the collection of [st'] is that of [st] with
    items put in front. *)
Definition extends (st st' : AppState) : Prop :=
  heap st ⊆ heap st'
  ∧ ∃ added : list PhotoItem, collection st' = added ++ collection st.

(** A stand-in for the engine's [toLowerCase] in the sample browsers:
    it lowers the letters A to Z and keeps every other code unit. *)
Definition lowerAtoZ (s : Js.codeUnits) : Js.codeUnits :=
  map (λ u, if ((65 <=? u) && (u <=? 90))%N then (u + 32)%N else u) s.

(** A browser in which every image loads and a 2D context exists. *)
Definition loadingBrowser : Browser := mkBrowser (λ _, true) true lowerAtoZ.

(** A store holding the default settings and the example settings. *)
Definition exampleStore : store :=
  {[ defaultSettingsRef := defaultSettings; 2%positive := exampleSettings ]}.

Definition exampleItem : PhotoItem :=
  mkPhotoItem "17000000000001234" "data:image/png;base64,AAAA"
    (Js.lit "Photo 1") 1700000000000 2%positive.

Definition exampleDownload : Download :=
  {| download := downloadName loadingBrowser (name exampleItem);
     canvasFilter := exportFilter (deref exampleStore (settings exampleItem));
     source := originalUrl exampleItem |}.

(** A second stored item, whose image the flaky browser cannot decode. *)
Definition brokenItem : PhotoItem :=
  mkPhotoItem "17000000000505678" "data:image/png;base64,????"
    (Js.lit "Broken Pic") 1700000000050 defaultSettingsRef.

(** A browser that fails to decode the image of [brokenItem]. *)
Definition flakyBrowser : Browser :=
  mkBrowser (λ url, negb (String.eqb url (originalUrl brokenItem))) true
    lowerAtoZ.

(** Two stored items, both selected for export. *)
Definition galleryState : AppState :=
  mkAppState EXPORT None defaultSettingsRef false "" false "" None
    [brokenItem; exampleItem] {[ id brokenItem; id exampleItem ]} exampleStore.

Definition sampleImage : string := "data:image/jpeg;base64,QUJD".

(** The editor with an image loaded and default settings. *)
Definition editingState : AppState :=
  setCurrentImage (Some sampleImage) initialState.

Definition sampleResult : AnalysisResult :=
  {| reasoning := "Brighter, with a little more contrast.";
     suggestedSettings :=
       {[ "brightness" := Js.Num "120"; "contrast" := Js.Num "110";
          "saturation" := Js.Num "90" ]} |}.

(** A parser that knows one response text. *)
Definition sampleText : string := "<the JSON text of sampleResult>".

Definition sampleParse (text : string) : option AnalysisResult :=
  if String.eqb text sampleText then Some sampleResult else None.

Definition sampleStamp : Stamp := mkStamp 1700000000100 "0.4242424242" 1700000000101.

Definition sampleFiles : list (File * Stamp) :=
  [(mkFile (Js.lit "beach.jpg") "image/jpeg"
      (Some "data:image/jpeg;base64,AAA"),
    mkStamp 1 "0.111111111" 2);
   (mkFile (Js.lit "torn.jpg") "image/jpeg" None, mkStamp 3 "0.222222222" 4);
   (mkFile (Js.lit ".hidden") "image/png" (Some "data:image/png;base64,BBB"),
    mkStamp 5 "0.333333333" 6)].

(** ** Sessions and well-formed states *)

(** The ids of the stored items, in collection order. *)
Definition itemIds (st : AppState) : list string := id <$> collection st.

(** What the rendered views let the user trigger: the export grid has
    one tile per stored item and toggles with that item's id; every
    other control is guarded by its own handler. *)
Definition fromUI (st : AppState) (a : Action) : Prop :=
  match a with
  | ToggleExport x => x ∈ itemIds st
  | _ => True
  end.

(** The states a session reaches from a freshly mounted [App].  A
    handler without [await] runs as one step.  The handlers with an
    [await] can be overtaken by other handlers while they wait:
    - [handleImageSelect] and [handleRefImageSelect] change nothing
      before their [await] and afterwards only call setters with values
      of the file, so their run is the step taken when the read settles;
    - [handleCastSpell] changes the state before its [await]
      ([beginCastSpell]) and again when the request settles
      ([settleCastSpell]), in the state it finds then;
    - [handleBatchImport] prepends its items when the last read settles;
      the names of the items use the [collection.length] of the render
      that created the callback, which may be out of date by then;
    - [handleBatchExport] empties the selection after its last delay.
    A settling is allowed in every state, also when no call is pending:
    the relation holds at least the states the [App] reaches. *)
Inductive Reachable (JSON_parse : string → option AnalysisResult)
    : AppState → Prop :=
| reach_initial : Reachable JSON_parse initialState
| reach_step (st : AppState) (a : Action) :
    Reachable JSON_parse st → fromUI st a →
    Reachable JSON_parse (step JSON_parse a st).1
| reach_cast_begin (st : AppState) :
    Reachable JSON_parse st → is_Some (Js.truthyStr (currentImage st)) →
    Reachable JSON_parse (beginCastSpell st)
| reach_cast_settle (st : AppState) (o : GenOutcome) :
    Reachable JSON_parse st →
    Reachable JSON_parse (settleCastSpell JSON_parse o st)
| reach_import_settle (st : AppState) (collectionLength : nat)
    (files : list (File * Stamp)) :
    Reachable JSON_parse st →
    Reachable JSON_parse (handleBatchImport collectionLength files st).1
| reach_export_settle (st : AppState) :
    Reachable JSON_parse st →
    Reachable JSON_parse (setExportSelection ∅ st).

(** A stored item whose settings object exists and whose image URL is
    not empty. *)
Definition itemOk (h : store) (item : PhotoItem) : Prop :=
  is_Some (h !! settings item) ∧ originalUrl item ≠ "".

Definition wellFormed (st : AppState) : Prop :=
  heap st !! defaultSettingsRef = Some defaultSettings
  ∧ is_Some (heap st !! currentSettings st)
  ∧ Forall (itemOk (heap st)) (collection st)
  ∧ exportSelection st ⊆ list_to_set (itemIds st)
  ∧ currentImage st ≠ Some "".

(** The filter string of untouched settings. *)
Definition neutralFilter : string :=
  "brightness(100%) contrast(100%) saturate(100%) sepia(0%) grayscale(0%) hue-rotate(0deg) blur(0px)".

(** The seven properties a filter string reads. *)
Definition renderedFields : list string :=
  ["brightness"; "contrast"; "saturation"; "sepia"; "grayscale";
   "hueRotate"; "blur"].

Definition isCastSpell (a : Action) : bool :=
  match a with CastSpell _ => true | _ => false end.

Definition isExport (a : Action) : bool :=
  match a with SingleExport _ _ | BatchExport _ => true | _ => false end.

(** ** The compare slider as an event loop *)

(** The listeners of [BeforeAfter]: pointer down on the container or the
    handle (mouse or touch), pointer release anywhere, and the two kinds
    of move. *)
Inductive SliderEvent : Type :=
| PointerDown
| PointerUp
| MouseMove (clientX : Q)
| TouchMove (touches : list Q).

Definition sliderStep (rnd : Q → Q) (p : BeforeAfter.Props) (e : SliderEvent)
    (st : BeforeAfter.State) : BeforeAfter.State :=
  match e with
  | PointerDown => BeforeAfter.handleMouseDown p st
  | PointerUp => BeforeAfter.handleMouseUp st
  | MouseMove clientX => BeforeAfter.handleMouseMove rnd clientX p st
  | TouchMove touches => BeforeAfter.handleTouchMove rnd touches p st
  end.

(** Events in order, each with the props and layout of its moment. *)
Fixpoint sliderRun (rnd : Q → Q)
    (events : list (BeforeAfter.Props * SliderEvent))
    (st : BeforeAfter.State) : BeforeAfter.State :=
  match events with
  | [] => st
  | (p, e) :: rest => sliderRun rnd rest (sliderStep rnd p e st)
  end.

Definition isMove (e : SliderEvent) : bool :=
  match e with
  | MouseMove _ | TouchMove _ => true
  | PointerDown | PointerUp => false
  end.

(** A container that is absent or has positive width. *)
Definition laidOut (p : BeforeAfter.Props) : Prop :=
  match BeforeAfter.containerRef p with
  | Some rect => (0 < BeforeAfter.width rect)%Q
  | None => True
  end.

(** Two numbers that are both finite and equal as rationals. *)
Definition finiteEq (n : BeforeAfter.number) (q : Q) : Prop :=
  match n with
  | BeforeAfter.Finite x => (x == q)%Q
  | BeforeAfter.NonFinite => False
  end.

(** [n] and [m] finite with [n] at most [m]. *)
Definition finiteLe (n m : BeforeAfter.number) : Prop :=
  match n, m with
  | BeforeAfter.Finite x, BeforeAfter.Finite y => (x <= y)%Q
  | _, _ => False
  end.

(** Whether the code unit [sep] occurs in a string. *)
Definition hasChar (sep : ascii) (s : string) : bool :=
  Js.occurs (λ c, Ascii.eqb c sep) s.

(** The data URL a reader produces for a file of the given type. *)
Definition readerUrl (mime payload : string) : string :=
  "data:" +:+ mime +:+ ";base64," +:+ payload.

(** A JPEG file that reads well, and the state after the uploader has
    handed it to the editor. *)
Definition sampleFile : File :=
  mkFile (Js.lit "dune.jpg") "image/jpeg"
    (Some (readerUrl "image/jpeg" "QUJD")).

(** The hyphenated form of a name, before the engine lowers it. *)
Definition hyphenate (itemName : Js.codeUnits) : Js.codeUnits :=
  Js.replaceSpaceRuns (Js.lit "-") false itemName.

(** A container 200 pixels wide whose left edge is at 10. *)
Definition sampleRect : BeforeAfter.DOMRect := BeforeAfter.mkDOMRect 10 200.

Definition compareProps : BeforeAfter.Props :=
  BeforeAfter.mkProps true (Some sampleRect).

(** A drag that overshoots the container on the right, then a touch near
    its left edge, then the release. *)
Definition sampleDrag : list (BeforeAfter.Props * SliderEvent) :=
  [(compareProps, PointerDown); (compareProps, MouseMove 5000);
   (compareProps, TouchMove [3%Q]); (compareProps, PointerUp)].

(** A session that loads a file and saves it. *)
Definition savedState : AppState :=
  (step sampleParse (SaveToCollection sampleStamp)
     (step sampleParse (ImageSelect sampleFile) initialState).1).1.

(** A session that loads a file, saves it and selects it for export. *)
Definition selectedState : AppState :=
  (step sampleParse (ToggleExport "17000000001004242") savedState).1.

(** A session in which the user resets the editor while a suggestion
    request is pending: the image is loaded, the request begins, the
    reset button is pressed, the request settles. *)
Definition overtakenState : AppState :=
  settleCastSpell sampleParse (Responded (Some sampleText))
    (handleResetImage
       (beginCastSpell
          (step sampleParse (ImageSelect sampleFile) initialState).1)).

(** A response that carries all seven rendered properties. *)
Definition fullResult : AnalysisResult :=
  {| reasoning := "A complete look."; suggestedSettings := exampleSettings |}.

Definition fullParse (text : string) : option AnalysisResult :=
  if String.eqb text sampleText then Some fullResult else None.

(** * Properties *)

(** ** The compare slider *)

Section SliderBounds.

Import BeforeAfter.

Variable rnd : Q → Q.
Hypothesis rnd_monotone : ∀ a b : Q, (a <= b)%Q → (rnd a <= rnd b)%Q.
Hypothesis rnd_0 : (rnd 0 == 0)%Q.
Hypothesis rnd_1 : (rnd 1 == 1)%Q.
Hypothesis rnd_100 : (rnd 100 == 100)%Q.

Lemma clamp_bounds (d w : Q) :
  (0 <= w)%Q → (0 <= Qmax 0 (Qmin d w) /\ Qmax 0 (Qmin d w) <= w)%Q.
Proof.
  intros Hw. split.
  - apply Q.le_max_l.
  - apply Q.max_lub; [exact Hw | apply Q.le_min_r].
Qed.

Lemma ratio_bounds (x w : Q) :
  (0 < w)%Q → (0 <= x)%Q → (x <= w)%Q →
  (0 <= rnd (x / w) /\ rnd (x / w) <= 1)%Q.
Proof.
  intros Hw H0 H1.
  assert (L : (rnd 0 <= rnd (x / w))%Q).
  { apply rnd_monotone. apply Qle_shift_div_l; [exact Hw |].
    now rewrite Qmult_0_l. }
  assert (U : (rnd (x / w) <= rnd 1)%Q).
  { apply rnd_monotone. apply Qle_shift_div_r; [exact Hw |].
    now rewrite Qmult_1_l. }
  rewrite rnd_0 in L. rewrite rnd_1 in U. now split.
Qed.

Lemma percent_bounds (r : Q) :
  (0 <= r)%Q → (r <= 1)%Q →
  (0 <= rnd (r * 100) /\ rnd (r * 100) <= 100)%Q.
Proof.
  intros H0 H1.
  assert (L : (rnd 0 <= rnd (r * 100))%Q).
  { apply rnd_monotone. apply Qmult_le_0_compat; [exact H0 | discriminate]. }
  assert (U : (rnd (r * 100) <= rnd 100)%Q).
  { apply rnd_monotone.
    apply Qle_trans with (1 * 100)%Q; [| apply Qle_refl].
    apply Qmult_le_compat_r; [exact H1 | discriminate]. }
  rewrite rnd_0 in L. rewrite rnd_100 in U. now split.
Qed.

Lemma positionFor_inRange (clientX : Q) (rect : DOMRect) :
  (0 < width rect)%Q → inRange (positionFor rnd clientX rect).
Proof.
  intros Hw. unfold positionFor, divide.
  destruct (Qeq_bool (width rect) 0) eqn:E.
  - apply Qeq_bool_iff in E. rewrite E in Hw. discriminate Hw.
  - cbn [times inRange].
    destruct (clamp_bounds (rnd (clientX - left rect)) (width rect))
      as [H0 H1]; [now apply Qlt_le_weak |].
    destruct (ratio_bounds _ _ Hw H0 H1) as [R0 R1].
    now apply percent_bounds.
Qed.

(** Over a container of positive width, every mouse move and every touch
    move of an active drag, whatever the pointer coordinate, leaves the
    slider position between 0 and 100; the offset is first clamped to
    between 0 and the container width. *)
Lemma slider_position_clamped
    (clientX : Q) (others : list Q) (rect : DOMRect) (p : Props) (st : State) :
  isResizing st = true →
  isCompareActive p = true →
  containerRef p = Some rect →
  (0 < width rect)%Q →
  inRange (sliderPosition (handleMouseMove rnd clientX p st))
  ∧ inRange (sliderPosition (handleTouchMove rnd (clientX :: others) p st))
  ∧ (0 <= Qmax 0 (Qmin (rnd (clientX - left rect)) (width rect))
     ∧ Qmax 0 (Qmin (rnd (clientX - left rect)) (width rect)) <= width rect)%Q.
Proof.
  intros Hr Hc Hrect Hw.
  unfold handleMouseMove, handleTouchMove. rewrite Hrect, Hr, Hc. cbn.
  split; [| split].
  - now apply positionFor_inRange.
  - now apply positionFor_inRange.
  - apply clamp_bounds. now apply Qlt_le_weak.
Qed.

End SliderBounds.

(** A pointer far to the right of a 200 pixel wide container, with exact
    arithmetic. *)
Lemma slider_position_clamped_example :
  BeforeAfter.inRange
    (BeforeAfter.sliderPosition
       (BeforeAfter.handleMouseMove (λ q, q) 5000
          (BeforeAfter.mkProps true (Some (BeforeAfter.mkDOMRect 10 200)))
          (BeforeAfter.mkState (BeforeAfter.Finite 50) true))).
Proof.
  refine (proj1 (slider_position_clamped (λ q, q) _ _ _ _
                   5000 [] (BeforeAfter.mkDOMRect 10 200)
                   (BeforeAfter.mkProps true
                      (Some (BeforeAfter.mkDOMRect 10 200)))
                   (BeforeAfter.mkState (BeforeAfter.Finite 50) true)
                   _ _ _ _)).
  - intros a b H; exact H.
  - reflexivity.
  - reflexivity.
  - reflexivity.
  - reflexivity.
  - reflexivity.
  - reflexivity.
  - reflexivity.
Defined.

(** Over a container of zero width the clamped offset is 0 and the
    quotient 0 / 0 is not a finite number. *)
Lemma positionFor_zero_width (rnd : Q → Q) (clientX l : Q) :
  BeforeAfter.positionFor rnd clientX (BeforeAfter.mkDOMRect l 0)
  = BeforeAfter.NonFinite.
Proof. reflexivity. Qed.

(** C3.  The claim fails over a container of zero width: during an
    active drag in compare mode, whatever the pointer coordinate and the
    rounding, a mouse move or a touch move sets the slider position to a
    value that is not a finite number, hence not between 0 and 100. *)
Theorem slider_zero_width_not_clamped (rnd : Q → Q) (clientX l : Q)
    (others : list Q) :
  BeforeAfter.sliderPosition
    (BeforeAfter.handleMouseMove rnd clientX
       (BeforeAfter.mkProps true (Some (BeforeAfter.mkDOMRect l 0)))
       (BeforeAfter.mkState (BeforeAfter.Finite 50) true))
  = BeforeAfter.NonFinite
  ∧ BeforeAfter.sliderPosition
      (BeforeAfter.handleTouchMove rnd (clientX :: others)
         (BeforeAfter.mkProps true (Some (BeforeAfter.mkDOMRect l 0)))
         (BeforeAfter.mkState (BeforeAfter.Finite 50) true))
    = BeforeAfter.NonFinite
  ∧ BeforeAfter.inRange BeforeAfter.NonFinite = False.
Proof. repeat split. Qed.

(** ** Toggling the export selection *)

(** C6.  Toggling the same id twice gives back the selection set, for the
    handler's set computation and for the state after the two clicks. *)
Theorem toggle_twice_identity (JSON_parse : string → option AnalysisResult)
    (S : gset string) (x : string) (st : AppState) :
  toggleExportSelection x (toggleExportSelection x S) = S
  ∧ exportSelection (run JSON_parse [ToggleExport x; ToggleExport x] st).1
    = exportSelection st.
Proof.
  assert (H : ∀ T : gset string,
             toggleExportSelection x (toggleExportSelection x T) = T).
  { intros T. unfold toggleExportSelection at 2.
    destruct (decide (x ∈ T)) as [Hin | Hout]; unfold toggleExportSelection.
    - rewrite decide_False
        by (rewrite elem_of_difference, elem_of_singleton; tauto).
      apply set_eq. intros y.
      rewrite elem_of_union, elem_of_difference, elem_of_singleton.
      destruct (decide (y = x)) as [-> | Hne]; tauto.
    - rewrite decide_True
        by (rewrite elem_of_union, elem_of_singleton; tauto).
      apply set_eq. intros y.
      rewrite elem_of_difference, elem_of_union, elem_of_singleton.
      split; [tauto |]. intros Hy. split; [tauto |].
      intros ->. contradiction. }
  split; [apply H |]. cbn. apply H.
Qed.

(** ** The filter string *)

Lemma append_String (c : ascii) (a b : string) :
  String c a +:+ b = String c (a +:+ b).
Proof. reflexivity. Qed.

Lemma append_assoc (a b c : string) : (a +:+ b) +:+ c = a +:+ b +:+ c.
Proof.
  induction a as [| x a IH]; [reflexivity |].
  rewrite !append_String. now rewrite IH.
Qed.

Lemma getFilterString_spec (s : Js.object) : getFilterString s = filterSpec s.
Proof.
  unfold getFilterString, filterSpec, cssFunction. cbn [String.concat].
  rewrite !append_assoc. reflexivity.
Qed.

Lemma exportFilter_preview (s : Js.object) : exportFilter s = getFilterString s.
Proof. reflexivity. Qed.

Lemma export_download_inv (b : Browser) (h : store) (item : PhotoItem)
    (d : Download) :
  EvDownload d ∈ processAndDownloadImage b h item →
  imageLoads b (originalUrl item) = true ∧ context2d b = true
  ∧ d = {| download := downloadName b (name item);
           canvasFilter := exportFilter (deref h (settings item));
           source := originalUrl item |}.
Proof.
  unfold processAndDownloadImage.
  destruct (imageLoads b (originalUrl item)), (context2d b);
    intros H; try (apply elem_of_nil in H; contradiction).
  apply list_elem_of_singleton in H. now inversion H.
Qed.

(** When the image loads and a context exists, the renderer triggers
    exactly one download. *)
Lemma export_download_run (b : Browser) (h : store) (item : PhotoItem) :
  imageLoads b (originalUrl item) = true → context2d b = true →
  processAndDownloadImage b h item
  = [EvDownload {| download := downloadName b (name item);
                   canvasFilter := exportFilter (deref h (settings item));
                   source := originalUrl item |}].
Proof.
  intros Hload Hctx. unfold processAndDownloadImage.
  now rewrite Hload, Hctx.
Qed.

Lemma get_union_l (a extra : Js.object) (k : string) (v : Js.value) :
  a !! k = Some v → Js.get (a ∪ extra) k = v.
Proof.
  intros H. unfold Js.get.
  now rewrite (lookup_union_Some_l a extra k v H).
Qed.

Lemma exampleSettings_filter (extra : Js.object) :
  getFilterString (exampleSettings ∪ extra) = exampleFilter.
Proof.
  unfold getFilterString.
  rewrite (get_union_l exampleSettings extra "brightness" (Js.Num "120")),
    (get_union_l exampleSettings extra "contrast" (Js.Num "110")),
    (get_union_l exampleSettings extra "saturation" (Js.Num "90")),
    (get_union_l exampleSettings extra "sepia" (Js.Num "0")),
    (get_union_l exampleSettings extra "grayscale" (Js.Num "0")),
    (get_union_l exampleSettings extra "hueRotate" (Js.Num "0")),
    (get_union_l exampleSettings extra "blur" (Js.Num "0"))
    by (vm_compute; reflexivity).
  vm_compute. reflexivity.
Qed.

(** C5.  For every settings object, whatever its numbers, the string
    assigned to the canvas filter at export is the one the preview uses,
    namely brightness, contrast, saturate, sepia, grayscale, hue-rotate
    and blur in this order with units %, %, %, %, %, deg and px.  An
    export whose image loads (with a 2D context) triggers exactly one
    download and that download carries this string of the item's
    settings, as does every download the renderer triggers; an item
    whose settings are the example settings (with or without further
    properties such as warmth) is exported with exactly the string of
    the specification. *)
Theorem filter_string_order :
  (∀ s : Js.object,
      exportFilter s = getFilterString s ∧ getFilterString s = filterSpec s)
  ∧ (∀ (b : Browser) (h : store) (item : PhotoItem),
        imageLoads b (originalUrl item) = true → context2d b = true →
        ∃ d : Download,
          processAndDownloadImage b h item = [EvDownload d]
          ∧ canvasFilter d = filterSpec (deref h (settings item)))
  ∧ (∀ (b : Browser) (h : store) (item : PhotoItem) (d : Download),
        EvDownload d ∈ processAndDownloadImage b h item →
        canvasFilter d = filterSpec (deref h (settings item)))
  ∧ (∀ extra : Js.object,
        exportFilter (exampleSettings ∪ extra) = exampleFilter
        ∧ getFilterString (exampleSettings ∪ extra) = exampleFilter)
  ∧ (∀ (b : Browser) (h : store) (item : PhotoItem) (extra : Js.object),
        imageLoads b (originalUrl item) = true → context2d b = true →
        h !! settings item = Some (exampleSettings ∪ extra) →
        ∃ d : Download,
          processAndDownloadImage b h item = [EvDownload d]
          ∧ canvasFilter d = exampleFilter).
Proof.
  split; [| split; [| split; [| split]]].
  - intros s. split; [apply exportFilter_preview | apply getFilterString_spec].
  - intros b h item Hload Hctx.
    rewrite (export_download_run b h item Hload Hctx).
    eexists. split; [reflexivity |]. cbn [canvasFilter].
    rewrite exportFilter_preview. apply getFilterString_spec.
  - intros b h item d H.
    apply export_download_inv in H as (_ & _ & ->). cbn [canvasFilter].
    rewrite exportFilter_preview. apply getFilterString_spec.
  - intros extra.
    split; [rewrite exportFilter_preview |]; apply exampleSettings_filter.
  - intros b h item extra Hload Hctx Hs.
    rewrite (export_download_run b h item Hload Hctx).
    eexists. split; [reflexivity |]. cbn [canvasFilter].
    rewrite exportFilter_preview. unfold deref. rewrite Hs. cbn [default].
    apply exampleSettings_filter.
Qed.

(** The example item goes through the export renderer of a browser that
    loads every image. *)
Lemma filter_string_order_witness :
  ∃ d : Download,
    processAndDownloadImage loadingBrowser exampleStore exampleItem
    = [EvDownload d]
    ∧ canvasFilter d = exampleFilter.
Proof.
  apply (proj2 (proj2 (proj2 (proj2 filter_string_order))) loadingBrowser
           exampleStore exampleItem ∅).
  - reflexivity.
  - reflexivity.
  - vm_compute. reflexivity.
Defined.

(** ** The name of a download *)

Lemma hyphen_not_space : Forall (λ u, Js.isSpace u = false) (Js.lit "-").
Proof. repeat constructor. Qed.

Lemma replaceSpaceRuns_no_space (inRun : bool) (s : Js.codeUnits) :
  Forall (λ u, Js.isSpace u = false) (Js.replaceSpaceRuns (Js.lit "-") inRun s).
Proof.
  revert inRun. induction s as [| u s IH]; intros inRun; [constructor |].
  cbn [Js.replaceSpaceRuns]. destruct (Js.isSpace u) eqn:E.
  - destruct inRun; [apply IH |].
    apply Forall_app. split; [apply hyphen_not_space | apply IH].
  - constructor; [exact E | apply IH].
Qed.

(** Inside a run, the scanner skips the rest of the run and goes on as
    if it started after it. *)
Lemma replaceSpaceRuns_skip (r s : Js.codeUnits) :
  ∃ run rest : Js.codeUnits,
    s = run ++ rest ∧ allSpace run ∧ startsWithSpace rest = false
    ∧ Js.replaceSpaceRuns r true s = Js.replaceSpaceRuns r false rest
    ∧ (length rest ≤ length s)%nat.
Proof.
  induction s as [| u s (run & rest & Hs & Hrun & Hrest & Hrep & Hlen)].
  - exists [], []. split; [reflexivity |]. split; [constructor |].
    split; [reflexivity |]. split; [reflexivity | lia].
  - destruct (Js.isSpace u) eqn:E.
    + exists (u :: run), rest. split; [cbn [app]; congruence |].
      split; [now constructor |]. split; [exact Hrest |].
      split; [cbn [Js.replaceSpaceRuns]; now rewrite E | cbn [length]; lia].
    + exists [], (u :: s). split; [reflexivity |]. split; [constructor |].
      split; [exact E |].
      split; [cbn [Js.replaceSpaceRuns]; now rewrite E | lia].
Qed.

Lemma replaceSpaceRuns_run (r run s : Js.codeUnits) :
  allSpace run → startsWithSpace s = false →
  Js.replaceSpaceRuns r true (run ++ s) = Js.replaceSpaceRuns r false s.
Proof.
  intros Hrun Hs. induction Hrun as [| u run Hu _ IH].
  - destruct s as [| v s]; [reflexivity |].
    cbn in Hs. cbn [app Js.replaceSpaceRuns]. now rewrite Hs.
  - cbn [app Js.replaceSpaceRuns]. now rewrite Hu.
Qed.

Lemma replaceSpaceRuns_hyphenated (s : Js.codeUnits) :
  Hyphenated s (Js.replaceSpaceRuns (Js.lit "-") false s).
Proof.
  remember (length s) as n eqn:Hn.
  assert (Hle : (length s ≤ n)%nat) by lia. clear Hn.
  revert s Hle. induction n as [| n IH]; intros s Hle.
  - destruct s; [constructor | cbn in Hle; lia].
  - destruct s as [| u s]; [constructor |].
    cbn [length] in Hle. cbn [Js.replaceSpaceRuns].
    destruct (Js.isSpace u) eqn:E.
    + destruct (replaceSpaceRuns_skip (Js.lit "-") s)
        as (run & rest & Hs & Hrun & Hrest & Hrep & Hlen).
      rewrite Hrep.
      replace (u :: s) with ((u :: run) ++ rest) by (cbn [app]; congruence).
      apply hyph_run.
      * discriminate.
      * now constructor.
      * exact Hrest.
      * apply IH. lia.
    + apply hyph_keep; [exact E |]. apply IH. lia.
Qed.

(** A name has one hyphenated form only, the one the source computes. *)
Lemma hyphenated_unique (s t : Js.codeUnits) :
  Hyphenated s t → t = Js.replaceSpaceRuns (Js.lit "-") false s.
Proof.
  induction 1 as [| u s t Hu _ IH | run s t Hne Hrun Hs _ IH].
  - reflexivity.
  - cbn [Js.replaceSpaceRuns]. now rewrite Hu, IH.
  - destruct Hrun as [| u run Hu Hrun]; [contradiction |].
    cbn [app Js.replaceSpaceRuns]. rewrite Hu.
    now rewrite (replaceSpaceRuns_run _ run s Hrun Hs), IH.
Qed.

Lemma downloadName_slug (b : Browser) (itemName : Js.codeUnits) :
  ∃ slug : Js.codeUnits,
    downloadName b itemName = Js.lit "bananalens-" ++ slug ++ Js.lit ".png"
    ∧ SlugOf b itemName slug
    ∧ (∀ other : Js.codeUnits, SlugOf b itemName other → other = slug).
Proof.
  exists (toLowerCase b (Js.replaceSpaceRuns (Js.lit "-") false itemName)).
  split; [reflexivity |]. split.
  - eexists. split; [apply replaceSpaceRuns_hyphenated | reflexivity].
  - intros other (t & Ht & ->). now rewrite (hyphenated_unique _ _ Ht).
Qed.

(** C8.  For every item name, taken as the sequence of its UTF-16 code
    units, and every browser: an export whose image loads (with a 2D
    context) triggers a download, and every download the export renderer
    triggers for the item is named bananalens-<slug>.png, where the slug
    is the lower case (the engine's toLowerCase) of the hyphenated name,
    the name in which each maximal run of white space (the class \s) has
    become one hyphen and every other code unit is kept.  The name has
    this one slug only, and its hyphenated form holds no white space. *)
Theorem download_named_by_slug (b : Browser) (h : store) (item : PhotoItem) :
  (imageLoads b (originalUrl item) = true → context2d b = true →
   ∃ d : Download, processAndDownloadImage b h item = [EvDownload d])
  ∧ (∀ d : Download,
        EvDownload d ∈ processAndDownloadImage b h item →
        ∃ slug : Js.codeUnits,
          download d = Js.lit "bananalens-" ++ slug ++ Js.lit ".png"
          ∧ SlugOf b (name item) slug
          ∧ (∀ other : Js.codeUnits,
                SlugOf b (name item) other → other = slug))
  ∧ (∀ hyphenated : Js.codeUnits,
        Hyphenated (name item) hyphenated →
        Forall (λ u, Js.isSpace u = false) hyphenated).
Proof.
  split; [| split].
  - intros Hload Hctx. rewrite (export_download_run b h item Hload Hctx).
    now eexists.
  - intros d H. apply export_download_inv in H as (_ & _ & ->).
    cbn [download]. apply downloadName_slug.
  - intros t Ht. rewrite (hyphenated_unique _ _ Ht).
    apply replaceSpaceRuns_no_space.
Qed.

(** The download of the example item. *)
Lemma download_named_by_slug_witness :
  ∃ slug : Js.codeUnits,
    download exampleDownload = Js.lit "bananalens-" ++ slug ++ Js.lit ".png"
    ∧ SlugOf loadingBrowser (name exampleItem) slug.
Proof.
  destruct (proj1 (proj2 (download_named_by_slug loadingBrowser exampleStore
                            exampleItem)) exampleDownload)
    as (slug & Hname & Hslug & _).
  - apply list_elem_of_singleton. reflexivity.
  - exists slug. split; [exact Hname | exact Hslug].
Defined.

Example downloadName_photo :
  downloadName loadingBrowser (Js.lit "Photo 1")
  = Js.lit "bananalens-photo-1.png".
Proof. vm_compute. reflexivity. Qed.

Example downloadName_runs :
  downloadName loadingBrowser (Js.lit " My  Summer Trip ")
  = Js.lit "bananalens--my-summer-trip-.png".
Proof. vm_compute. reflexivity. Qed.

(** White space beyond ASCII (here EM SPACE, U+2003, and IDEOGRAPHIC
    SPACE, U+3000) is hyphenated as well, and code units of other
    scripts are kept. *)
Example hyphenate_wide_spaces :
  hyphenate ([3585; 8195; 12288; 3586]%N) = [3585; 45; 3586]%N.
Proof. vm_compute. reflexivity. Qed.

(** ** The suggestion call and the merge of its result *)

Section Suggestion.

Variable JSON_parse : string → option AnalysisResult.

Lemma spread_lookup (prev suggested : Js.object) (k : string) :
  Js.spread prev suggested !! k
  = match suggested !! k with
    | Some v => Some v
    | None => prev !! k
    end.
Proof.
  unfold Js.spread. destruct (suggested !! k) as [v |] eqn:E.
  - now apply lookup_union_Some_l.
  - now apply lookup_union_r.
Qed.

Lemma handleCastSpell_success (o : GenOutcome) (st : AppState)
    (image : string) (result : AnalysisResult) :
  Js.truthyStr (currentImage st) = Some image →
  tryAnalyze JSON_parse o = inr result →
  deref (heap (handleCastSpell JSON_parse o st).1)
        (currentSettings (handleCastSpell JSON_parse o st).1)
  = Js.spread (deref (heap st) (currentSettings st)) (suggestedSettings result).
Proof.
  intros Himage Htry. unfold handleCastSpell, analyzeImageAndGetSettings.
  rewrite Himage, Htry. cbn.
  unfold deref. now rewrite lookup_insert_eq.
Qed.

(** C1.  When the suggestion call returns a result, the settings after
    the merge hold the suggested value for every property present in
    suggestedSettings and the prior value for every property absent from
    it; so does warmth when the result does not mention it. *)
Theorem merge_is_partial (o : GenOutcome) (st : AppState) (image : string)
    (result : AnalysisResult) :
  Js.truthyStr (currentImage st) = Some image →
  tryAnalyze JSON_parse o = inr result →
  let prev := deref (heap st) (currentSettings st) in
  let st' := (handleCastSpell JSON_parse o st).1 in
  let merged := deref (heap st') (currentSettings st') in
  (∀ (k : string) (v : Js.value),
      suggestedSettings result !! k = Some v → merged !! k = Some v)
  ∧ (∀ k : string,
        suggestedSettings result !! k = None → merged !! k = prev !! k)
  ∧ (suggestedSettings result !! "warmth" = None →
     Js.get merged "warmth" = Js.get prev "warmth").
Proof.
  intros Himage Htry prev st' merged.
  assert (E : merged = Js.spread prev (suggestedSettings result))
    by (now apply handleCastSpell_success with image).
  rewrite E. split; [| split].
  - intros k v Hk. now rewrite spread_lookup, Hk.
  - intros k Hk. now rewrite spread_lookup, Hk.
  - intros Hk. unfold Js.get. now rewrite spread_lookup, Hk.
Qed.

(** C2.  When the suggestion call fails, the client throws (after its one
    request and its log line), the caller catches and shows the failure
    message, and apart from that message the state, and with it the
    current settings and the object they point to, is what it was; the
    trace holds exactly one request. *)
Theorem failed_call_keeps_settings (o : GenOutcome) (st : AppState)
    (image : string) :
  Js.truthyStr (currentImage st) = Some image →
  aiFails JSON_parse o →
  let st' := (handleCastSpell JSON_parse o st).1 in
  let log := (handleCastSpell JSON_parse o st).2 in
  (∃ error : Error, tryAnalyze JSON_parse o = inl error)
  ∧ aiReasoning st' = spellFizzled
  ∧ currentSettings st' = currentSettings st
  ∧ heap st' = heap st
  ∧ st' = setIsProcessing false (setAiReasoning spellFizzled st)
  ∧ requestCount log = 1
  ∧ List.last log (EvAlert "") = EvConsoleError "AI Error".
Proof.
  intros Himage Hfail st' log.
  assert (Hthrow : ∃ error : Error, tryAnalyze JSON_parse o = inl error).
  { destruct o as [reason | [text |]]; cbn in *.
    - now eexists.
    - destruct Hfail as [-> | Hparse]; [now eexists |].
      destruct text; cbn; [now eexists |]. rewrite Hparse. now eexists.
    - now eexists. }
  destruct Hthrow as [error Herr].
  subst st' log. unfold handleCastSpell, analyzeImageAndGetSettings.
  rewrite Himage, Herr. cbn.
  repeat split; try reflexivity. now exists error.
Qed.

End Suggestion.

(** ** Batch import *)

Lemma importLoop_spec (len i : nat) (files : list (File * Stamp))
    (acc : list PhotoItem) (log : list Event) :
  ∃ (items : list PhotoItem) (errs : list Event),
    importLoop len i files acc log = (acc ++ items, log ++ errs)
    ∧ Forall2 importedFrom items (List.filter readable files)
    ∧ length (List.filter isImportError errs) + length items = length files
    ∧ length errs + length items = length files.
Proof.
  revert i acc log.
  induction files as [| [file t] files IH]; intros i acc log.
  - exists [], []. cbn. rewrite !app_nil_r. repeat split. constructor.
  - cbn [importLoop List.filter]. unfold readable at 1, fileToGenerativePart.
    cbn [fst]. destruct (readAsDataURL file) as [url |] eqn:Hread.
    + edestruct IH as (items & errs & -> & Hall & Hcount & Hlen).
      eexists (_ :: items), errs. rewrite <- app_assoc. cbn [app].
      split; [reflexivity |]. split; [| cbn [length]; lia].
      constructor; [| exact Hall].
      eexists. unfold fileToGenerativePart. cbn [fst snd].
      rewrite Hread. repeat split.
    + edestruct IH as (items & errs & -> & Hall & Hcount & Hlen).
      exists items, (EvConsoleError "Failed to import file" :: errs).
      rewrite <- app_assoc. cbn [app].
      split; [reflexivity |]. split; [exact Hall |].
      cbn [List.filter isImportError length]. cbn. lia.
Qed.

(** C4.  A batch import of N files of which M can be read puts exactly M
    new items in front of the items already stored, one per readable file
    and in the order of those files in the input; each of the other N - M
    files costs one logged error and the loop goes on. *)
Theorem batch_import_prepends (collectionLength : nat)
    (files : list (File * Stamp)) (st : AppState) :
  let st' := (handleBatchImport collectionLength files st).1 in
  let log := (handleBatchImport collectionLength files st).2 in
  let succeeded := List.filter readable files in
  ∃ newItems : list PhotoItem,
    collection st' = newItems ++ collection st
    ∧ length newItems = length succeeded
    ∧ Forall2 importedFrom newItems succeeded
    ∧ length (List.filter isImportError log) + length succeeded
      = length files
    ∧ List.last log (EvDelay 0) = importedAlert (length succeeded).
Proof.
  intros st' log succeeded. subst st' log. unfold handleBatchImport.
  destruct (importLoop_spec collectionLength 0 files [] [])
    as (items & errs & -> & Hall & Hcount & Hlen).
  cbn [app fst snd]. exists items.
  assert (HM : length items = length succeeded)
    by (eapply Forall2_length; exact Hall).
  split; [reflexivity |]. split; [exact HM |]. split; [exact Hall |].
  split.
  - rewrite List.filter_app, length_app. cbn. lia.
  - rewrite List.last_last. unfold importedAlert. now rewrite HM.
Qed.

(** ** Batch export *)

Lemma exportLoop_spec (b : Browser) (h : store) (items : list PhotoItem)
    (processed : nat) (log : list Event) :
  exportLoop b h items processed log
  = (processed + length items,
     log ++ flat_map (exportSegment b h) items).
Proof.
  revert processed log.
  induction items as [| item items IH]; intros processed log.
  - cbn. now rewrite Nat.add_0_r, app_nil_r.
  - cbn [exportLoop flat_map length]. rewrite IH.
    unfold exportSegment at 2. rewrite <- !app_assoc.
    f_equal. lia.
Qed.

Lemma downloads_app (l1 l2 : list Event) :
  downloads (l1 ++ l2) = downloads l1 ++ downloads l2.
Proof. apply omap_app. Qed.

Lemma downloads_segment (b : Browser) (h : store) (item : PhotoItem) :
  downloads (exportSegment b h item)
  = if exportable b item then [downloadOf b h item] else [].
Proof.
  unfold exportSegment, processAndDownloadImage, exportable.
  now destruct (imageLoads b (originalUrl item)), (context2d b).
Qed.

Lemma downloads_segments (b : Browser) (h : store) (items : list PhotoItem) :
  downloads (flat_map (exportSegment b h) items)
  = map (downloadOf b h) (List.filter (exportable b) items).
Proof.
  induction items as [| item items IH]; [reflexivity |].
  cbn [flat_map List.filter]. rewrite downloads_app, downloads_segment, IH.
  now destruct (exportable b item).
Qed.

Lemma delays_segments (b : Browser) (h : store) (items : list PhotoItem) :
  length (List.filter isDelay (flat_map (exportSegment b h) items))
  = length items.
Proof.
  induction items as [| item items IH]; [reflexivity |].
  cbn [flat_map]. rewrite List.filter_app, length_app, IH.
  unfold exportSegment, processAndDownloadImage.
  now destruct (imageLoads b (originalUrl item)), (context2d b).
Qed.

Lemma handleBatchExport_run (b : Browser) (st : AppState) :
  exportSelection st ≠ ∅ →
  handleBatchExport b st
  = (setExportSelection ∅ st,
     flat_map (exportSegment b (heap st)) (selectedItems st)
     ++ [exportedAlert (length (selectedItems st))]).
Proof.
  intros Hne. unfold handleBatchExport.
  destruct (decide (size (exportSelection st) = 0)) as [Hz | _].
  - apply size_empty_iff in Hz. now apply leibniz_equiv in Hz.
  - fold (selectedItems st). now rewrite exportLoop_spec.
Qed.

Lemma selected_ids (S : gset string) (l : list PhotoItem) :
  id <$> filter (λ item, id item ∈ S) l = filter (λ x, x ∈ S) (id <$> l).
Proof.
  induction l as [| item l IH]; [reflexivity |].
  cbn [fmap list_fmap]. rewrite !filter_cons.
  destruct (decide (id item ∈ S)); cbn [fmap list_fmap]; now rewrite IH.
Qed.

Lemma selected_count (S : gset string) (l : list PhotoItem) :
  NoDup (id <$> l) → S ⊆ list_to_set (id <$> l) →
  length (filter (λ item, id item ∈ S) l) = size S.
Proof.
  intros Hnd Hsub.
  rewrite <- (length_fmap id), selected_ids.
  rewrite <- (size_list_to_set (C := gset string))
    by (now apply NoDup_filter).
  f_equal. apply set_eq. intros x.
  rewrite elem_of_list_to_set, list_elem_of_filter.
  split; [tauto |]. intros Hx. split; [exact Hx |].
  apply Hsub in Hx. now apply elem_of_list_to_set in Hx.
Qed.

(** C7.  A batch export goes through the selected items one after the
    other in collection order, each followed by its pause; an item whose
    image fails to load leaves no download and the loop goes on, so the
    downloads of the batch are those of the selected items that load, in
    order, and every selected item gets its turn. *)
Theorem batch_export_skips_failures (b : Browser) (st : AppState) :
  exportSelection st ≠ ∅ →
  let log := (handleBatchExport b st).2 in
  (∀ item : PhotoItem,
      imageLoads b (originalUrl item) = false →
      processAndDownloadImage b (heap st) item = [])
  ∧ log = flat_map (exportSegment b (heap st)) (selectedItems st)
          ++ [exportedAlert (length (selectedItems st))]
  ∧ downloads log
    = map (downloadOf b (heap st))
        (List.filter (exportable b) (selectedItems st))
  ∧ length (List.filter isDelay log) = length (selectedItems st).
Proof.
  intros Hne log. subst log. rewrite handleBatchExport_run by exact Hne.
  cbn [snd]. split; [| split; [| split]].
  - intros item Hfail. unfold processAndDownloadImage. now rewrite Hfail.
  - reflexivity.
  - rewrite downloads_app, downloads_segments. cbn. now rewrite app_nil_r.
  - rewrite List.filter_app, length_app, delays_segments. cbn. lia.
Qed.

(** C10.  When a batch export over a non-empty selection ends, the
    selection is empty and the alert reports the number of selected items
    of the collection, whatever the number of downloads that came out;
    with distinct ids and a selection made of ids of the collection this
    number is the size of the selection at the start. *)
Theorem batch_export_reports_selected (b : Browser) (st : AppState) :
  exportSelection st ≠ ∅ →
  let st' := (handleBatchExport b st).1 in
  let log := (handleBatchExport b st).2 in
  exportSelection st' = ∅
  ∧ List.last log (EvDelay 0) = exportedAlert (length (selectedItems st))
  ∧ length (downloads log)
    = length (List.filter (exportable b) (selectedItems st))
  ∧ (length (downloads log) ≤ length (selectedItems st))%nat
  ∧ (NoDup (id <$> collection st) →
     exportSelection st ⊆ list_to_set (id <$> collection st) →
     length (selectedItems st) = size (exportSelection st)).
Proof.
  intros Hne st' log. subst st' log. rewrite handleBatchExport_run by exact Hne.
  cbn [fst snd].
  assert (D : length (downloads
                (flat_map (exportSegment b (heap st)) (selectedItems st)
                 ++ [exportedAlert (length (selectedItems st))]))
              = length (List.filter (exportable b) (selectedItems st))).
  { rewrite downloads_app, downloads_segments. cbn.
    now rewrite app_nil_r, length_map. }
  split; [reflexivity |]. split; [apply List.last_last |].
  split; [exact D |]. split.
  - rewrite D. apply List.filter_length_le.
  - intros Hnd Hsub. now apply selected_count.
Qed.

(** ** Stored entries are never written to *)

Section Frame.

Variable JSON_parse : string → option AnalysisResult.

Lemma extends_refl (st : AppState) : extends st st.
Proof. split; [reflexivity | now exists []]. Qed.

Lemma extends_trans (st1 st2 st3 : AppState) :
  extends st1 st2 → extends st2 st3 → extends st1 st3.
Proof.
  intros [H12 [a12 C12]] [H23 [a23 C23]]. split.
  - now transitivity (heap st2).
  - exists (a23 ++ a12). now rewrite C23, C12, app_assoc.
Qed.

(** A handler that leaves the store and the collection alone. *)
Ltac frame_same := split; cbn; [reflexivity | now exists []].

Lemma handleCastSpell_extends (o : GenOutcome) (st : AppState) :
  extends st (handleCastSpell JSON_parse o st).1.
Proof.
  unfold handleCastSpell.
  destruct (Js.truthyStr (currentImage st)); [| frame_same].
  unfold analyzeImageAndGetSettings.
  destruct (tryAnalyze JSON_parse o) as [error | result]; cbn.
  - frame_same.
  - split; cbn.
    + apply insert_subseteq, not_elem_of_dom, is_fresh.
    + now exists [].
Qed.

Lemma step_extends (a : Action) (st : AppState) :
  extends st (step JSON_parse a st).1.
Proof.
  destruct a; cbn [step fst]; try frame_same.
  - unfold handleImageSelect.
    destruct (fileToGenerativePart file); frame_same.
  - unfold handleRefImageSelect. destruct files as [| file files].
    + frame_same.
    + destruct (fileToGenerativePart file); frame_same.
  - apply handleCastSpell_extends.
  - unfold handleSaveToCollection.
    destruct (Js.truthyStr (currentImage st)); [| frame_same].
    split; [reflexivity |]. cbn. now eexists [_].
  - unfold handleBatchExport.
    destruct (decide (size (exportSelection st) = 0)); [frame_same |].
    rewrite exportLoop_spec. frame_same.
  - unfold handleBatchImport.
    destruct (importLoop (length (collection st)) 0 files [] [])
      as [newItems log].
    split; [reflexivity |]. cbn. now exists newItems.
  - destruct (collection st !! i); frame_same.
Qed.

Lemma run_cons (a : Action) (actions : list Action) (st : AppState) :
  (run JSON_parse (a :: actions) st).1
  = (run JSON_parse actions (step JSON_parse a st).1).1.
Proof.
  cbn [run]. destruct (step JSON_parse a st) as [st1 log1]. cbn [fst].
  now destruct (run JSON_parse actions st1).
Qed.

Lemma run_extends (actions : list Action) (st : AppState) :
  extends st (run JSON_parse actions st).1.
Proof.
  revert st. induction actions as [| a actions IH]; intros st.
  - apply extends_refl.
  - cbn [run]. pose proof (step_extends a st) as Hstep.
    destruct (step JSON_parse a st) as [st1 log1].
    pose proof (IH st1) as Hrun.
    destruct (run JSON_parse actions st1) as [st2 log2].
    cbn [fst] in *. now apply extends_trans with st1.
Qed.

(** C9.  Loading the stored item at an index makes its image and its
    settings object the current ones and changes neither the collection
    nor any settings object; after any further actions the item is still
    in the collection, behind whatever was added since, with the same
    fields, and its settings object is unchanged; a successful merge of a
    suggestion right after the load puts the merged settings in a new
    object and leaves the one of the item as it was. *)
Theorem load_leaves_entry_intact (st : AppState) (i : nat)
    (item : PhotoItem) (o : Js.object) (actions : list Action) :
  collection st !! i = Some item →
  heap st !! settings item = Some o →
  let st1 := (step JSON_parse (EditItem i) st).1 in
  let st' := (run JSON_parse (EditItem i :: actions) st).1 in
  (currentImage st1 = Some (originalUrl item)
   ∧ currentSettings st1 = settings item
   ∧ collection st1 = collection st
   ∧ heap st1 = heap st)
  ∧ (∃ added : list PhotoItem,
        collection st' = added ++ collection st
        ∧ collection st' !! (length added + i) = Some item)
  ∧ heap st' !! settings item = Some o
  ∧ (∀ (out : GenOutcome) (image : string) (result : AnalysisResult),
        Js.truthyStr (Some (originalUrl item)) = Some image →
        tryAnalyze JSON_parse out = inr result →
        let st2 := (step JSON_parse (CastSpell out) st1).1 in
        currentSettings st2 ≠ settings item
        ∧ heap st2 !! settings item = Some o
        ∧ deref (heap st2) (currentSettings st2)
          = Js.spread o (suggestedSettings result)).
Proof.
  intros Hitem Ho st1 st'.
  assert (E1 : st1 = loadItem item st)
    by (subst st1; cbn [step]; now rewrite Hitem).
  assert (E' : st' = (run JSON_parse actions st1).1).
  { subst st' st1. apply run_cons. }
  clearbody st1 st'.
  split; [| split; [| split]].
  - rewrite E1. cbn. repeat split; reflexivity.
  - destruct (run_extends actions st1) as [_ [added Hadd]].
    rewrite <- E' in Hadd. rewrite E1 in Hadd. cbn in Hadd.
    exists added. split; [exact Hadd |].
    rewrite Hadd, lookup_app_r by lia.
    now replace (length added + i - length added) with i by lia.
  - destruct (run_extends actions st1) as [Hsub _].
    rewrite <- E' in Hsub. rewrite E1 in Hsub. cbn in Hsub.
    eapply lookup_weaken; [exact Ho | exact Hsub].
  - intros out image result Himage Htry st2.
    assert (Hcur : Js.truthyStr (currentImage st1) = Some image)
      by (now rewrite E1).
    assert (Hder : deref (heap st2) (currentSettings st2)
                   = Js.spread (deref (heap st1) (currentSettings st1))
                       (suggestedSettings result))
      by (now apply handleCastSpell_success with image).
    assert (Hprev : deref (heap st1) (currentSettings st1) = o).
    { rewrite E1. cbn. unfold deref. now rewrite Ho. }
    assert (Hsub : heap st1 ⊆ heap st2)
      by (apply (handleCastSpell_extends out st1)).
    assert (Hkeep : heap st2 !! settings item = Some o).
    { eapply lookup_weaken; [| exact Hsub]. rewrite E1. exact Ho. }
    split; [| split].
    + subst st2. cbn [step]. unfold handleCastSpell.
      rewrite Hcur. unfold analyzeImageAndGetSettings. rewrite Htry. cbn.
      intros Heq.
      pose proof (is_fresh (dom (heap st1))) as Hfresh.
      rewrite Heq in Hfresh. apply Hfresh, elem_of_dom.
      rewrite E1. cbn. now exists o.
    + exact Hkeep.
    + now rewrite Hder, Hprev.
Qed.

End Frame.

(** ** The theorems at sample inputs *)

(** A successful suggestion in the editor leaves warmth as it was. *)
Lemma merge_is_partial_witness :
  Js.get
    (deref
       (heap (handleCastSpell sampleParse (Responded (Some sampleText))
                editingState).1)
       (currentSettings
          (handleCastSpell sampleParse (Responded (Some sampleText))
             editingState).1))
    "warmth"
  = Js.get (deref (heap editingState) (currentSettings editingState)) "warmth".
Proof.
  pose proof (merge_is_partial sampleParse (Responded (Some sampleText))
                editingState sampleImage sampleResult) as H.
  cbv zeta in H.
  apply H; vm_compute; reflexivity.
Defined.

(** A response that does not parse leaves the current settings alone. *)
Lemma failed_call_keeps_settings_witness :
  currentSettings
    (handleCastSpell sampleParse (Responded (Some "not json")) editingState).1
  = currentSettings editingState.
Proof.
  pose proof (failed_call_keeps_settings sampleParse
                (Responded (Some "not json")) editingState sampleImage) as H.
  cbv zeta in H.
  apply H; [vm_compute; reflexivity | right; vm_compute; reflexivity].
Defined.

Lemma gallery_selection_nonempty : exportSelection galleryState ≠ ∅.
Proof.
  intros H. apply (f_equal size) in H. vm_compute in H. discriminate H.
Qed.

(** Of the two selected items the flaky browser exports the one it can
    decode, after having tried the other. *)
Lemma batch_export_skips_failures_witness :
  downloads (handleBatchExport flakyBrowser galleryState).2
  = map (downloadOf flakyBrowser (heap galleryState))
      (List.filter (exportable flakyBrowser) (selectedItems galleryState)).
Proof.
  pose proof (batch_export_skips_failures flakyBrowser galleryState) as H.
  cbv zeta in H.
  apply H. apply gallery_selection_nonempty.
Defined.

Lemma batch_export_reports_selected_witness :
  exportSelection (handleBatchExport flakyBrowser galleryState).1 = ∅
  ∧ List.last (handleBatchExport flakyBrowser galleryState).2 (EvDelay 0)
    = exportedAlert (length (selectedItems galleryState)).
Proof.
  pose proof (batch_export_reports_selected flakyBrowser galleryState) as H.
  cbv zeta in H.
  split; apply H; apply gallery_selection_nonempty.
Defined.

(** The second stored item is edited, merged with a suggestion, saved and
    dropped from the editor; its settings object is what it was. *)
Lemma load_leaves_entry_intact_witness :
  heap
    (run sampleParse
       [EditItem 1; CastSpell (Responded (Some sampleText));
        SaveToCollection sampleStamp; ResetImage] galleryState).1
  !! settings exampleItem = Some exampleSettings.
Proof.
  pose proof (load_leaves_entry_intact sampleParse galleryState 1 exampleItem
                exampleSettings
                [CastSpell (Responded (Some sampleText));
                 SaveToCollection sampleStamp; ResetImage]) as H.
  cbv zeta in H.
  apply H; vm_compute; reflexivity.
Defined.

Example batch_export_flaky :
  (handleBatchExport flakyBrowser galleryState).2
  = [EvDelay 500; EvDownload exampleDownload; EvDelay 500;
     EvAlert "Exported 2 photos."].
Proof. vm_compute. reflexivity. Qed.

Example batch_import_sample :
  map name (collection (handleBatchImport 2 sampleFiles galleryState).1)
  = map Js.lit ["beach"; "Photo 5"; "Broken Pic"; "Photo 1"]
  ∧ (handleBatchImport 2 sampleFiles galleryState).2
    = [EvConsoleError "Failed to import file";
       EvAlert "Imported 2 photos to your collection."].
Proof. split; vm_compute; reflexivity. Qed.

Example cast_spell_sample :
  getFilterString
    (deref
       (heap (handleCastSpell sampleParse (Responded (Some sampleText))
                editingState).1)
       (currentSettings
          (handleCastSpell sampleParse (Responded (Some sampleText))
             editingState).1))
  = exampleFilter.
Proof. vm_compute. reflexivity. Qed.

(** * Further properties of the compare slider *)

Section SliderTracking.

Import BeforeAfter.

Variable rnd : Q → Q.
Hypothesis rnd_monotone : ∀ a b : Q, (a <= b)%Q → (rnd a <= rnd b)%Q.
Hypothesis rnd_0 : (rnd 0 == 0)%Q.
Hypothesis rnd_1 : (rnd 1 == 1)%Q.
Hypothesis rnd_100 : (rnd 100 == 100)%Q.

Lemma rnd_proper (a b : Q) : (a == b)%Q → (rnd a == rnd b)%Q.
Proof.
  intros H. apply Qle_antisym; apply rnd_monotone; rewrite H; apply Qle_refl.
Qed.

Lemma positive_not_zero (w : Q) : (0 < w)%Q → Qeq_bool w 0 = false.
Proof.
  intros Hw. destruct (Qeq_bool w 0) eqn:E; [| reflexivity].
  apply Qeq_bool_iff in E. rewrite E in Hw. discriminate Hw.
Qed.

(** The position when the clamped offset is the fraction [t] of the
    width and neither rounding moves [t] or [t * 100]. *)
Lemma position_of_fraction (clientX t : Q) (rect : DOMRect) :
  (0 < width rect)%Q →
  (Qmax 0 (Qmin (rnd (clientX - left rect)) (width rect))
   == t * width rect)%Q →
  (rnd t == t)%Q → (rnd (t * 100) == t * 100)%Q →
  finiteEq (positionFor rnd clientX rect) (t * 100).
Proof.
  intros Hw Hx Ht Ht100. unfold positionFor, divide.
  rewrite (positive_not_zero _ Hw). cbn [times finiteEq].
  assert (Hne : ¬ (width rect == 0)%Q).
  { intros E. rewrite E in Hw. discriminate Hw. }
  assert (Hq : (rnd (Qmax 0 (Qmin (rnd (clientX - left rect)) (width rect))
                     / width rect) == t)%Q).
  { rewrite <- Ht. apply rnd_proper. rewrite Hx. now apply Qdiv_mult_l. }
  rewrite <- Ht100. apply rnd_proper. now rewrite Hq.
Qed.

(** X1.  Over a container of positive width, a pointer at or left of the
    container's left edge puts the slider at 0, and a pointer at or beyond
    its right edge puts it at 100 (the width being a representable
    number). *)
Theorem slider_endpoints (clientX : Q) (rect : DOMRect) :
  (0 < width rect)%Q →
  (rnd (width rect) == width rect)%Q →
  ((clientX <= left rect)%Q → finiteEq (positionFor rnd clientX rect) 0)
  ∧ ((left rect + width rect <= clientX)%Q →
     finiteEq (positionFor rnd clientX rect) 100).
Proof.
  intros Hw Hrep. split; intros Hc.
  - assert (Hoff : (rnd (clientX - left rect) <= 0)%Q).
    { rewrite <- rnd_0. apply rnd_monotone. lra. }
    assert (E : finiteEq (positionFor rnd clientX rect) (0 * 100)).
    { apply position_of_fraction; [exact Hw | | exact rnd_0 |].
      - rewrite Qmult_0_l. apply Q.max_l.
        apply Qle_trans with (rnd (clientX - left rect));
          [apply Q.le_min_l | exact Hoff].
      - apply Qeq_trans with (rnd 0); [now apply rnd_proper |].
        now rewrite rnd_0. }
    destruct (positionFor rnd clientX rect); [| exact E].
    cbn in *. rewrite E. reflexivity.
  - assert (Hoff : (width rect <= rnd (clientX - left rect))%Q).
    { rewrite <- Hrep. apply rnd_monotone. lra. }
    assert (E : finiteEq (positionFor rnd clientX rect) (1 * 100)).
    { apply position_of_fraction; [exact Hw | | exact rnd_1 |].
      - rewrite Qmult_1_l. rewrite (Q.min_r _ _ Hoff).
        apply Q.max_r. now apply Qlt_le_weak.
      - apply Qeq_trans with (rnd 100); [now apply rnd_proper |].
        now rewrite rnd_100. }
    destruct (positionFor rnd clientX rect); [| exact E].
    cbn in *. rewrite E. reflexivity.
Qed.

(** X2.  Over a container of positive width the slider follows the
    pointer: a pointer further right never gives a smaller position. *)
Theorem slider_monotone (clientX1 clientX2 : Q) (rect : DOMRect) :
  (0 < width rect)%Q → (clientX1 <= clientX2)%Q →
  finiteLe (positionFor rnd clientX1 rect) (positionFor rnd clientX2 rect).
Proof.
  intros Hw Hc. unfold positionFor, divide.
  rewrite (positive_not_zero _ Hw). cbn [times finiteLe].
  apply rnd_monotone. apply Qmult_le_compat_r; [| discriminate].
  apply rnd_monotone. unfold Qdiv.
  apply Qmult_le_compat_r;
    [| apply Qinv_le_0_compat; now apply Qlt_le_weak].
  apply Q.max_le_compat_l, Q.min_le_compat_r, rnd_monotone.
  unfold Qminus. apply Qplus_le_compat; [exact Hc | apply Qle_refl].
Qed.

Lemma sliderStep_inRange (p : Props) (e : SliderEvent) (st : State) :
  laidOut p → inRange (sliderPosition st) →
  inRange (sliderPosition (sliderStep rnd p e st)).
Proof.
  intros Hp Hst. unfold laidOut in Hp.
  destruct e as [| | clientX | touches]; cbn [sliderStep].
  - unfold handleMouseDown. now destruct (isCompareActive p).
  - exact Hst.
  - unfold handleMouseMove. destruct (containerRef p) as [rect |]; [| exact Hst].
    destruct (negb (isResizing st) || negb (isCompareActive p)); [exact Hst |].
    cbn [sliderPosition]. now apply positionFor_inRange.
  - unfold handleTouchMove. destruct (containerRef p) as [rect |]; [| exact Hst].
    destruct (negb (isResizing st) || negb (isCompareActive p)); [exact Hst |].
    destruct touches as [| clientX touches]; [exact Hst |].
    cbn [sliderPosition]. now apply positionFor_inRange.
Qed.

(** X3.  As long as the container has positive width whenever an event
    arrives, no sequence of pointer-down, release, mouse-move and
    touch-move events takes the slider position out of [0,100]. *)
Theorem slider_run_in_range (events : list (Props * SliderEvent))
    (st : State) :
  Forall (λ pe, laidOut pe.1) events →
  inRange (sliderPosition st) →
  inRange (sliderPosition (sliderRun rnd events st)).
Proof.
  revert st. induction events as [| [p e] events IH]; intros st Hall Hst.
  - exact Hst.
  - apply Forall_cons in Hall as [Hp Hall]. cbn [sliderRun].
    apply IH; [exact Hall |]. now apply sliderStep_inRange.
Qed.

End SliderTracking.

(** X5.  The slider moves only by a move during a drag: while compare
    mode is off no event changes the position, and while no drag is
    active any sequence of moves leaves the whole state as it is. *)
Theorem slider_moves_only_in_drag (rnd : Q → Q) :
  (∀ (events : list (BeforeAfter.Props * SliderEvent))
     (st : BeforeAfter.State),
      Forall (λ pe, BeforeAfter.isCompareActive pe.1 = false) events →
      BeforeAfter.sliderPosition (sliderRun rnd events st)
      = BeforeAfter.sliderPosition st)
  ∧ (∀ (events : list (BeforeAfter.Props * SliderEvent))
       (st : BeforeAfter.State),
        BeforeAfter.isResizing st = false →
        Forall (λ pe, isMove pe.2 = true) events →
        sliderRun rnd events st = st).
Proof.
  split.
  - intros events. induction events as [| [p e] events IH]; intros st Hall.
    + reflexivity.
    + apply Forall_cons in Hall as [Hp Hall]. cbn [sliderRun fst] in *.
      rewrite IH by exact Hall.
      destruct e; cbn [sliderStep].
      * unfold BeforeAfter.handleMouseDown. now rewrite Hp.
      * reflexivity.
      * unfold BeforeAfter.handleMouseMove. rewrite Hp.
        destruct (BeforeAfter.containerRef p); [| reflexivity].
        now rewrite orb_true_r.
      * unfold BeforeAfter.handleTouchMove. rewrite Hp.
        destruct (BeforeAfter.containerRef p); [| reflexivity].
        now rewrite orb_true_r.
  - intros events. induction events as [| [p e] events IH]; intros st Hidle Hall.
    + reflexivity.
    + apply Forall_cons in Hall as [He Hall]. cbn [sliderRun snd] in *.
      assert (E : sliderStep rnd p e st = st).
      { destruct e; try discriminate He; cbn [sliderStep].
        - unfold BeforeAfter.handleMouseMove. rewrite Hidle.
          now destruct (BeforeAfter.containerRef p).
        - unfold BeforeAfter.handleTouchMove. rewrite Hidle.
          now destruct (BeforeAfter.containerRef p). }
      rewrite E. now apply IH.
Qed.

(** * Invariants of a session *)

Lemma truthyStr_Some (o : option string) (s : string) :
  Js.truthyStr o = Some s → o = Some s ∧ s ≠ "".
Proof.
  destruct o as [[| c t] |]; cbn; intros H; try discriminate H.
  injection H as <-. split; [reflexivity | discriminate].
Qed.

Lemma dataUrl_not_empty (file : File) (base64 : Js.value) :
  dataUrl file base64 ≠ "".
Proof. unfold dataUrl. discriminate. Qed.

Lemma itemOk_insert (h : store) (l : loc) (o : Js.object) (item : PhotoItem) :
  h !! l = None → itemOk h item → itemOk (<[l := o]> h) item.
Proof.
  intros Hl [[s Hs] Hurl]. split; [| exact Hurl].
  exists s. rewrite lookup_insert_ne; [exact Hs |]. congruence.
Qed.

Lemma importLoop_items (len i : nat) (files : list (File * Stamp))
    (acc : list PhotoItem) (log : list Event) :
  ∃ items : list PhotoItem,
    (importLoop len i files acc log).1 = acc ++ items
    ∧ Forall (λ item, settings item = defaultSettingsRef
                      ∧ originalUrl item ≠ "") items.
Proof.
  destruct (importLoop_spec len i files acc log)
    as (items & errs & -> & Hall & _ & _).
  exists items. split; [reflexivity |].
  induction Hall as [| item f items fs (base64 & _ & Hurl & _ & Hset) _ IH];
    constructor; [| exact IH].
  split; [exact Hset |]. rewrite Hurl. apply dataUrl_not_empty.
Qed.

Lemma selection_grows (S : gset string) (old added : list string) :
  S ⊆ list_to_set old → S ⊆ list_to_set (added ++ old).
Proof.
  intros H x Hx. rewrite list_to_set_app_L. apply elem_of_union. right.
  now apply H.
Qed.

Section Invariant.

Variable JSON_parse : string → option AnalysisResult.

(** The five parts of [wellFormed], with those that are hypotheses
    already closed. *)
Ltac wf_split :=
  unfold wellFormed; split; [| split; [| split; [| split]]];
  cbn; try assumption.

Lemma initial_wellFormed : wellFormed initialState.
Proof.
  assert (H : heap initialState !! defaultSettingsRef = Some defaultSettings)
    by apply lookup_singleton_eq.
  split; [exact H | split; [| split; [| split]]].
  - exists defaultSettings. exact H.
  - constructor.
  - apply empty_subseteq.
  - discriminate.
Qed.

Lemma settleCastSpell_wellFormed (o : GenOutcome) (st : AppState) :
  wellFormed st → wellFormed (settleCastSpell JSON_parse o st).
Proof.
  intros (Hd & Hc & Hitems & Hsel & Himg). unfold settleCastSpell.
  destruct (tryAnalyze JSON_parse o) as [error | result]; cbn.
  - now wf_split.
  - pose proof (is_fresh (dom (heap st))) as Hfresh.
    apply not_elem_of_dom in Hfresh.
    wf_split.
    + rewrite lookup_insert_ne; [exact Hd |]. congruence.
    + rewrite lookup_insert_eq. now eexists.
    + eapply Forall_impl; [exact Hitems |].
      intros item. now apply itemOk_insert.
Qed.

Lemma beginCastSpell_wellFormed (st : AppState) :
  wellFormed st → wellFormed (beginCastSpell st).
Proof. intros (Hd & Hc & Hitems & Hsel & Himg). now wf_split. Qed.

(** Without interruption, [handleCastSpell] leaves the state its two
    halves leave one after the other. *)
Lemma handleCastSpell_halves (o : GenOutcome) (st : AppState)
    (image : string) :
  Js.truthyStr (currentImage st) = Some image →
  (handleCastSpell JSON_parse o st).1
  = settleCastSpell JSON_parse o (beginCastSpell st).
Proof.
  intros Himage. unfold handleCastSpell, settleCastSpell.
  rewrite Himage. unfold analyzeImageAndGetSettings.
  now destruct (tryAnalyze JSON_parse o).
Qed.

Lemma handleCastSpell_wellFormed (o : GenOutcome) (st : AppState) :
  wellFormed st → wellFormed (handleCastSpell JSON_parse o st).1.
Proof.
  intros Hwf.
  destruct (Js.truthyStr (currentImage st)) as [image |] eqn:E.
  - rewrite (handleCastSpell_halves o st image E).
    now apply settleCastSpell_wellFormed, beginCastSpell_wellFormed.
  - unfold handleCastSpell. now rewrite E.
Qed.

Lemma handleBatchImport_wellFormed (len : nat) (files : list (File * Stamp))
    (st : AppState) :
  wellFormed st → wellFormed (handleBatchImport len files st).1.
Proof.
  intros (Hd & Hc & Hitems & Hsel & Himg). unfold handleBatchImport.
  destruct (importLoop_items len 0 files [] []) as (items & Hitems' & Hnew).
  destruct (importLoop len 0 files [] []) as [newItems log].
  cbn in Hitems'. subst newItems.
  wf_split.
  - apply Forall_app. split; [| exact Hitems].
    eapply Forall_impl; [exact Hnew |].
    intros item [Hset Hurl]. split; [| exact Hurl].
    rewrite Hset, Hd. now eexists.
  - unfold itemIds in *. cbn. rewrite fmap_app.
    now apply selection_grows.
Qed.

Lemma step_wellFormed (a : Action) (st : AppState) :
  wellFormed st → fromUI st a → wellFormed (step JSON_parse a st).1.
Proof.
  intros Hwf Hui. pose proof Hwf as (Hd & Hc & Hitems & Hsel & Himg).
  destruct a; cbn [step fst].
  - unfold handleImageSelect.
    destruct (fileToGenerativePart file); [| exact Hwf].
    wf_split.
    + rewrite Hd. now eexists.
    + intros E. injection E as E. now apply dataUrl_not_empty in E.
  - wf_split; [| discriminate]. rewrite Hd. now eexists.
  - unfold handleRefImageSelect. destruct files as [| file files]; [exact Hwf |].
    destruct (fileToGenerativePart file); [| exact Hwf]. now wf_split.
  - now wf_split.
  - now wf_split.
  - now apply handleCastSpell_wellFormed.
  - now wf_split.
  - unfold handleSaveToCollection.
    destruct (Js.truthyStr (currentImage st)) as [image |] eqn:E; [| exact Hwf].
    apply truthyStr_Some in E as [_ Hne].
    wf_split.
    + constructor; [| exact Hitems]. now split.
    + unfold itemIds in *. cbn.
      intros x Hx. apply elem_of_union. right. now apply Hsel.
  - exact Hwf.
  - unfold handleBatchExport.
    destruct (decide (size (exportSelection st) = 0)); [exact Hwf |].
    rewrite exportLoop_spec. wf_split. apply empty_subseteq.
  - now apply handleBatchImport_wellFormed.
  - cbn in Hui. wf_split.
    unfold toggleExportSelection.
    destruct (decide (x ∈ exportSelection st)); intros y Hy.
    + apply elem_of_difference in Hy as [Hy _]. now apply Hsel.
    + apply elem_of_union in Hy as [Hy | Hy]; [now apply Hsel |].
      apply elem_of_singleton in Hy as ->.
      now apply elem_of_list_to_set.
  - destruct (collection st !! i) as [item |] eqn:E; [| exact Hwf].
    assert (Hok : itemOk (heap st) item).
    { eapply Forall_forall in Hitems; [exact Hitems |].
      eapply list_elem_of_lookup_2. exact E. }
    destruct Hok as [Hs Hurl].
    wf_split. intros E'. injection E' as E'. now apply Hurl.
  - now wf_split.
Qed.

Lemma reachable_wellFormed (st : AppState) :
  Reachable JSON_parse st → wellFormed st.
Proof.
  induction 1 as [| st a _ IH Hui | st _ IH _ | st o _ IH
                 | st len files _ IH | st _ IH].
  - apply initial_wellFormed.
  - now apply step_wellFormed.
  - now apply beginCastSpell_wellFormed.
  - now apply settleCastSpell_wellFormed.
  - now apply handleBatchImport_wellFormed.
  - destruct IH as (Hd & Hc & Hitems & Hsel & Himg).
    wf_split. apply empty_subseteq.
Qed.

End Invariant.

(** * Properties of sessions *)

Section Sessions.

Variable JSON_parse : string → option AnalysisResult.

(** X6.  In every state a session reaches, also one in which handlers
    overtook a pending request, import or export, the current settings
    and the settings of every stored item refer to an existing object, every
    stored item has a non-empty image URL, and the shared default
    settings object still holds the default values. *)
Theorem session_references_valid (st : AppState) :
  Reachable JSON_parse st →
  is_Some (heap st !! currentSettings st)
  ∧ (∀ item : PhotoItem,
        item ∈ collection st →
        is_Some (heap st !! settings item) ∧ originalUrl item ≠ "")
  ∧ heap st !! defaultSettingsRef = Some defaultSettings.
Proof.
  intros Hr. apply reachable_wellFormed in Hr as (Hd & Hc & Hitems & _ & _).
  split; [exact Hc |]. split; [| exact Hd].
  intros item Hin. eapply Forall_forall in Hitems; [exact Hitems | exact Hin].
Qed.

(** X7.  In every state a session reaches, also one in which handlers
    overtook a pending request, import or export, the export selection
    holds only ids of stored items; when those ids are distinct, the number on
    the download button (the size of the selection) is the number of
    items a batch export goes through and reports. *)
Theorem selection_within_collection (st : AppState) :
  Reachable JSON_parse st →
  exportSelection st ⊆ list_to_set (itemIds st)
  ∧ (NoDup (itemIds st) →
     size (exportSelection st) = length (selectedItems st)).
Proof.
  intros Hr. apply reachable_wellFormed in Hr as (_ & _ & _ & Hsel & _).
  split; [exact Hsel |]. intros Hnd. symmetry. now apply selected_count.
Qed.

(** X8.  In every state a session reaches, also one in which handlers
    overtook a pending request, import or export, the reset button
    empties the editor and brings back exactly the default settings, whose filter
    string is the neutral one; view, collection and export selection are
    left alone. *)
Theorem reset_restores_defaults (st : AppState) :
  Reachable JSON_parse st →
  let st' := handleResetImage st in
  deref (heap st') (currentSettings st') = defaultSettings
  ∧ getFilterString (deref (heap st') (currentSettings st')) = neutralFilter
  ∧ currentImage st' = None ∧ refImage st' = None
  ∧ promptText st' = "" ∧ aiReasoning st' = "" ∧ showCompare st' = false
  ∧ view st' = view st ∧ collection st' = collection st
  ∧ exportSelection st' = exportSelection st.
Proof.
  intros Hr st'. apply reachable_wellFormed in Hr as (Hd & _).
  assert (E : deref (heap st') (currentSettings st') = defaultSettings).
  { subst st'. cbn. unfold deref. now rewrite Hd. }
  rewrite E. repeat split.
Qed.

End Sessions.

(** ** Reading a file into the editor *)

Lemma hasChar_app (sep : ascii) (a b : string) :
  hasChar sep (a +:+ b) = hasChar sep a || hasChar sep b.
Proof.
  unfold hasChar. induction a as [| c a IH]; [reflexivity |].
  rewrite append_String. cbn [Js.occurs]. rewrite IH. apply orb_assoc.
Qed.

Lemma split_no_sep (sep : ascii) (s : string) :
  hasChar sep s = false → Js.split sep s = [s].
Proof.
  unfold hasChar. induction s as [| c s IH]; [reflexivity |].
  cbn [Js.occurs Js.split]. intros H. apply orb_false_elim in H as [Hc Hs].
  rewrite Hc, (IH Hs). reflexivity.
Qed.

Lemma split_app (sep : ascii) (a b : string) :
  hasChar sep a = false →
  Js.split sep (a +:+ String sep b) = a :: Js.split sep b.
Proof.
  unfold hasChar. induction a as [| c a IH]; intros H.
  - change ("" +:+ String sep b) with (String sep b).
    cbn [Js.split]. now rewrite Ascii.eqb_refl.
  - rewrite append_String. cbn [Js.occurs Js.split] in *.
    apply orb_false_elim in H as [Hc Ha].
    rewrite Hc, (IH Ha). reflexivity.
Qed.

(** The payload of a data URL is what follows its one comma. *)
Lemma readerUrl_payload (mime payload : string) :
  hasChar "," mime = false → hasChar "," payload = false →
  Js.index (Js.split "," (readerUrl mime payload)) 1 = Js.Str payload.
Proof.
  intros Hm Hp. unfold readerUrl.
  replace ("data:" +:+ mime +:+ ";base64," +:+ payload)
    with (("data:" +:+ mime +:+ ";base64") +:+ String "," payload)
    by (now rewrite !append_assoc).
  rewrite split_app.
  - rewrite (split_no_sep _ _ Hp). reflexivity.
  - rewrite !hasChar_app, Hm. reflexivity.
Qed.

(** X9.  A file whose read gives the data URL of its type and payload
    comes back from the uploader unchanged: the editor shows that very
    URL, with default settings, no reasoning text and compare mode off; a
    file whose read fails leaves the editor as it was and logs an error. *)
Theorem image_select_round_trip (file : File) (payload : string)
    (st : AppState) :
  hasChar "," (fileType file) = false →
  hasChar "," payload = false →
  (readAsDataURL file = Some (readerUrl (fileType file) payload) →
   let st' := (handleImageSelect file st).1 in
   currentImage st' = readAsDataURL file
   ∧ currentSettings st' = defaultSettingsRef
   ∧ aiReasoning st' = "" ∧ showCompare st' = false
   ∧ collection st' = collection st)
  ∧ (readAsDataURL file = None →
     handleImageSelect file st = (st, [EvConsoleError "Error loading image"])).
Proof.
  intros Hm Hp. split.
  - intros Hread st'. subst st'. unfold handleImageSelect, fileToGenerativePart.
    rewrite Hread, (readerUrl_payload _ _ Hm Hp). cbn. repeat split.
  - intros Hread. unfold handleImageSelect, fileToGenerativePart.
    now rewrite Hread.
Qed.

(** X10.  After such a file is loaded, a cast-spell click sends the
    model one request whose first part is the payload of the file,
    labelled image/jpeg whatever the type of the file; without a
    reference image the only other part is the instruction text. *)
Theorem cast_spell_sends_payload
    (JSON_parse : string → option AnalysisResult) (file : File)
    (payload : string) (o : GenOutcome) (st : AppState) :
  hasChar "," (fileType file) = false →
  hasChar "," payload = false →
  readAsDataURL file = Some (readerUrl (fileType file) payload) →
  let st1 := (handleImageSelect file st).1 in
  let log := (handleCastSpell JSON_parse o st1).2 in
  ∃ (rest : list Part) (later : list Event),
    log = EvGenerateContent "gemini-2.5-flash"
            (InlineData "image/jpeg" (Js.Str payload) :: rest) :: later
    ∧ requestCount log = 1
    ∧ (Js.truthyStr (refImage st) = None →
       rest = [Text (if String.eqb (promptText st) ""
                     then autoInstruction else promptText st) false]).
Proof.
  intros Hm Hp Hread st1 log. subst log st1.
  unfold handleImageSelect, fileToGenerativePart.
  rewrite Hread, (readerUrl_payload _ _ Hm Hp). cbn [fst].
  unfold handleCastSpell. cbn [currentImage setShowCompare setAiReasoning
    setCurrentSettings setCurrentImage].
  change (dataUrl file (Js.Str payload))
    with (readerUrl (fileType file) payload).
  assert (Ht : Js.truthyStr (Some (readerUrl (fileType file) payload))
               = Some (readerUrl (fileType file) payload)) by reflexivity.
  rewrite Ht, (readerUrl_payload _ _ Hm Hp).
  cbn [refImage promptText setIsProcessing setAiReasoning setShowCompare
       setCurrentSettings setCurrentImage].
  unfold analyzeImageAndGetSettings, requestParts.
  destruct (Js.truthyStr (refImage st)) as [ref |] eqn:Eref.
  - destruct (truthy (Js.index (Js.split "," ref) 1));
      destruct (tryAnalyze JSON_parse o);
      eexists _, _; (split; [reflexivity | split; [reflexivity |]]);
      intros H; discriminate H.
  - cbn [truthy].
    destruct (tryAnalyze JSON_parse o);
      eexists _, _; (split; [reflexivity | split; [reflexivity |]]);
      intros _; reflexivity.
Qed.

(** ** Saving, loading and exporting the edited image *)

(** X11.  Save and load are a round trip: once the editor's image is
    saved, whatever the session does next, the saved entry can be loaded
    back and the editor then holds the image and the very settings it
    had at the time of the save. *)
Theorem save_then_load_round_trip
    (JSON_parse : string → option AnalysisResult) (t : Stamp)
    (actions : list Action) (st : AppState) (image : string)
    (o : Js.object) :
  Js.truthyStr (currentImage st) = Some image →
  heap st !! currentSettings st = Some o →
  let st1 := (step JSON_parse (SaveToCollection t) st).1 in
  let st2 := (run JSON_parse actions st1).1 in
  ∃ k : nat,
    let st3 := (step JSON_parse (EditItem k) st2).1 in
    currentImage st3 = Some image
    ∧ currentSettings st3 = currentSettings st
    ∧ deref (heap st3) (currentSettings st3) = o
    ∧ view st3 = HOME.
Proof.
  intros Himage Ho st1 st2.
  destruct (run_extends JSON_parse actions st1) as [Hsub [added Hadd]].
  fold st2 in Hsub, Hadd.
  assert (E1 : st1 = setCollection
                 ({| id := Js.showZ (nowForId t) +:+
                           Js.slice 2 6 (randomDigits t);
                     originalUrl := image;
                     name := Js.lit ("Photo " +:+
                       Js.showZ (Z.of_nat (length (collection st) + 1)));
                     timestamp := nowForTimestamp t;
                     settings := currentSettings st |} :: collection st) st).
  { subst st1. cbn [step]. unfold handleSaveToCollection. now rewrite Himage. }
  clearbody st1 st2. subst st1. cbn [collection heap setCollection] in *.
  exists (length added). cbn [step].
  rewrite Hadd, lookup_app_r, Nat.sub_diag by lia. cbn.
  repeat split. unfold deref.
  now rewrite (lookup_weaken _ _ _ _ Ho Hsub).
Qed.

(** X12.  Exporting the edited image leaves exactly one of two traces.
    With an image in the editor that loads, and a 2D context, it is one
    download and nothing else: drawn from the image in the editor,
    carrying the filter string the preview shows, and named bananalens-,
    the engine's lower case of edit, .png.  Without an image in the
    editor, with an image that does not load or without a 2D context it
    is the empty trace.  So there is never more than one download, and
    where the engine leaves edit as it is the download is named
    bananalens-edit.png. *)
Theorem single_export_matches_preview (b : Browser) (t : Z) (st : AppState) :
  (∀ image : string,
      Js.truthyStr (currentImage st) = Some image →
      imageLoads b image = true → context2d b = true →
      handleSingleExport b t st
      = [EvDownload
           {| download :=
                Js.lit "bananalens-" ++ toLowerCase b (Js.lit "edit")
                ++ Js.lit ".png";
              canvasFilter :=
                getFilterString (deref (heap st) (currentSettings st));
              source := image |}])
  ∧ (∀ image : string,
        Js.truthyStr (currentImage st) = Some image →
        imageLoads b image = false ∨ context2d b = false →
        handleSingleExport b t st = [])
  ∧ (Js.truthyStr (currentImage st) = None → handleSingleExport b t st = [])
  ∧ (length (handleSingleExport b t st) ≤ 1)%nat
  ∧ (toLowerCase b (Js.lit "edit") = Js.lit "edit" →
     ∀ d : Download,
       EvDownload d ∈ handleSingleExport b t st →
       download d = Js.lit "bananalens-edit.png").
Proof.
  unfold handleSingleExport. split; [| split; [| split; [| split]]].
  - intros image -> Hload Hctx. unfold processAndDownloadImage.
    cbn [originalUrl name settings]. rewrite Hload, Hctx. reflexivity.
  - intros image -> Hfail. unfold processAndDownloadImage.
    cbn [originalUrl]. destruct Hfail as [-> | ->]; [reflexivity |].
    now destruct (imageLoads b image).
  - now intros ->.
  - destruct (Js.truthyStr (currentImage st)) as [image |]; [| cbn; lia].
    unfold processAndDownloadImage.
    destruct (imageLoads b _), (context2d b); cbn; lia.
  - intros Hlower d Hd.
    destruct (Js.truthyStr (currentImage st)) as [image |];
      [| now apply elem_of_nil in Hd].
    apply export_download_inv in Hd as (_ & _ & ->).
    cbn [download name]. unfold downloadName.
    change (Js.replaceSpaceRuns (Js.lit "-") false (Js.lit "edit"))
      with (Js.lit "edit").
    rewrite Hlower. reflexivity.
Qed.

(** ** Names of imported items *)

Lemma lit_String (c : ascii) (s : string) :
  Js.lit (String c s) = N_of_ascii c :: Js.lit s.
Proof. reflexivity. Qed.

Lemma lit_app (a b : string) : Js.lit (a +:+ b) = Js.lit a ++ Js.lit b.
Proof.
  induction a as [| c a IH]; [reflexivity |].
  rewrite append_String, !lit_String, IH. reflexivity.
Qed.

(** The code units of a printed number are the digits 0 to 9. *)
Lemma digits_units (d : Decimal.uint) :
  Forall (λ u, (48 ≤ u)%N ∧ (u ≤ 57)%N) (Js.lit (NilEmpty.string_of_uint d)).
Proof.
  induction d; cbn [NilEmpty.string_of_uint]; [constructor | ..];
    rewrite lit_String; (constructor; [cbn; lia | assumption]).
Qed.

Lemma showZ_nat_units (n : nat) :
  Forall (λ u, (48 ≤ u)%N ∧ (u ≤ 57)%N) (Js.lit (Js.showZ (Z.of_nat n))).
Proof.
  unfold Js.showZ. destruct (Z.of_nat n) as [| p | p] eqn:E.
  - repeat constructor; cbn; lia.
  - cbn [Z.to_int NilZero.string_of_int NilZero.string_of_uint].
    destruct (Pos.to_uint p) eqn:Ep; try apply digits_units.
    repeat constructor; cbn; lia.
  - lia.
Qed.

Lemma photo_name_no_dot (n : nat) :
  46%N ∉ Js.lit ("Photo " +:+ Js.showZ (Z.of_nat n)).
Proof.
  rewrite lit_app. intros H. apply elem_of_app in H as [H | H].
  - vm_compute in H. repeat (apply elem_of_cons in H as [H | H]; [lia |]).
    now apply elem_of_nil in H.
  - pose proof (showZ_nat_units n) as Hall.
    eapply Forall_forall in Hall; [| exact H]. lia.
Qed.

Lemma photo_name_not_empty (n : nat) :
  Js.lit ("Photo " +:+ Js.showZ (Z.of_nat n)) ≠ [].
Proof. rewrite lit_app. discriminate. Qed.

(** The first piece of a split is the longest prefix without the
    separator. *)
Lemma splitUnits_head (sep : N) (s : Js.codeUnits) :
  ∃ (stem : Js.codeUnits) (pieces : list Js.codeUnits) (rest : Js.codeUnits),
    Js.splitUnits sep s = stem :: pieces
    ∧ s = stem ++ rest
    ∧ (sep ∉ stem)
    ∧ (rest = [] ∨ ∃ rest' : Js.codeUnits, rest = sep :: rest').
Proof.
  induction s as [| u s (stem & pieces & rest & Hs & Hcat & Hstem & Hrest)].
  - exists [], [], []. split; [reflexivity |]. split; [reflexivity |].
    split; [apply not_elem_of_nil | now left].
  - cbn [Js.splitUnits]. destruct (u =? sep)%N eqn:E.
    + apply N.eqb_eq in E as ->.
      exists [], (Js.splitUnits sep s), (sep :: s).
      split; [reflexivity |]. split; [reflexivity |].
      split; [apply not_elem_of_nil | right; now eexists].
    + apply N.eqb_neq in E. rewrite Hs.
      exists (u :: stem), pieces, rest.
      split; [reflexivity |]. split; [cbn [app]; congruence |].
      split; [| exact Hrest].
      intros H. apply elem_of_cons in H as [H | H]; [congruence | tauto].
Qed.

(** X13.  The name given to an imported file is the part of the file
    name before its first dot (the whole name when it has no dot), or,
    when that part is empty, Photo and the number collection.length + i
    + 1 of the callback; either way the name is not empty and holds no
    dot.  File names are sequences of UTF-16 code units. *)
Theorem import_name_usable (collectionLength i : nat) (file : File) :
  ∃ stem rest : Js.codeUnits,
    fileName file = stem ++ rest
    ∧ (46%N ∉ stem)
    ∧ (rest = [] ∨ ∃ rest' : Js.codeUnits, rest = 46%N :: rest')
    ∧ (stem ≠ [] → importName collectionLength i file = stem)
    ∧ (stem = [] →
       importName collectionLength i file
       = Js.lit ("Photo " +:+
                 Js.showZ (Z.of_nat (collectionLength + i + 1))))
    ∧ importName collectionLength i file ≠ []
    ∧ 46%N ∉ importName collectionLength i file.
Proof.
  unfold importName.
  destruct (splitUnits_head 46 (fileName file))
    as (stem & pieces & rest & -> & Hcat & Hstem & Hrest).
  exists stem, rest.
  split; [exact Hcat |]. split; [exact Hstem |]. split; [exact Hrest |].
  destruct stem as [| u stem].
  - split; [intros H; now contradiction H |]. split; [reflexivity |].
    split; [apply photo_name_not_empty | apply photo_name_no_dot].
  - split; [reflexivity |]. split; [intros H; discriminate H |].
    split; [discriminate | exact Hstem].
Qed.

(** ** The export selection as a set *)

Lemma toggle_elem (x z : string) (S : gset string) :
  z ∈ toggleExportSelection x S ↔ (z = x ∧ z ∉ S) ∨ (z ≠ x ∧ z ∈ S).
Proof.
  unfold toggleExportSelection. destruct (decide (x ∈ S)) as [Hin | Hout].
  - rewrite elem_of_difference, elem_of_singleton.
    destruct (decide (z = x)) as [-> | Hne]; tauto.
  - rewrite elem_of_union, elem_of_singleton.
    destruct (decide (z = x)) as [-> | Hne]; tauto.
Qed.

(** X14.  A click on a tile flips the membership of that item's id and
    of no other id, changes the size of the selection by exactly one,
    and clicks on two tiles give the same selection in either order. *)
Theorem toggle_flips_one (x y : string) (S : gset string) :
  (∀ z : string,
      z ∈ toggleExportSelection x S ↔ (z = x ∧ z ∉ S) ∨ (z ≠ x ∧ z ∈ S))
  ∧ toggleExportSelection x (toggleExportSelection y S)
    = toggleExportSelection y (toggleExportSelection x S)
  ∧ (if decide (x ∈ S)
     then size (toggleExportSelection x S) + 1 = size S
     else size (toggleExportSelection x S) = size S + 1).
Proof.
  split; [| split].
  - intros z. apply toggle_elem.
  - apply set_eq. intros z. rewrite !toggle_elem.
    destruct (decide (z = x)) as [Ex | Hx];
      destruct (decide (z = y)) as [Ey | Hy];
      destruct (decide (z ∈ S)) as [Hz | Hz]; tauto.
  - unfold toggleExportSelection. destruct (decide (x ∈ S)) as [Hin | Hout].
    + rewrite size_difference, size_singleton.
      * assert (size S ≠ 0); [| lia].
        intros Hz. apply size_empty_iff in Hz. apply Hz in Hin.
        now apply not_elem_of_empty in Hin.
      * intros z ->%elem_of_singleton. exact Hin.
    + rewrite size_union, size_singleton; [reflexivity |].
      intros z Hz ->%elem_of_singleton. contradiction.
Qed.

(** ** What a session sends and downloads *)

Lemma requestCount_app (l1 l2 : list Event) :
  requestCount (l1 ++ l2) = requestCount l1 + requestCount l2.
Proof. unfold requestCount. now rewrite List.filter_app, length_app. Qed.

Lemma importLoop_log (len i : nat) (files : list (File * Stamp))
    (acc : list PhotoItem) (log : list Event) :
  ∃ n : nat,
    (importLoop len i files acc log).2
    = log ++ replicate n (EvConsoleError "Failed to import file").
Proof.
  revert i acc log. induction files as [| [file t] files IH]; intros i acc log.
  - exists 0. cbn. now rewrite app_nil_r.
  - cbn [importLoop]. destruct (fileToGenerativePart file).
    + apply IH.
    + destruct (IH (S i) acc (log ++ [EvConsoleError "Failed to import file"]))
        as [n Hn].
      exists (S n). rewrite Hn, <- app_assoc. reflexivity.
Qed.

Lemma replicate_error_silent (n : nat) :
  requestCount (replicate n (EvConsoleError "Failed to import file")) = 0
  ∧ downloads (replicate n (EvConsoleError "Failed to import file")) = [].
Proof. induction n as [| n [IH1 IH2]]; [now split |]. split; cbn; assumption. Qed.

Lemma export_segments_no_request (b : Browser) (h : store)
    (items : list PhotoItem) :
  requestCount (flat_map (exportSegment b h) items) = 0.
Proof.
  induction items as [| item items IH]; [reflexivity |].
  cbn [flat_map]. rewrite requestCount_app, IH.
  unfold exportSegment, processAndDownloadImage.
  now destruct (imageLoads b (originalUrl item)), (context2d b).
Qed.

Section Traces.

Variable JSON_parse : string → option AnalysisResult.

Lemma step_requestCount (a : Action) (st : AppState) :
  (requestCount (step JSON_parse a st).2
   ≤ (if isCastSpell a then 1 else 0))%nat.
Proof.
  destruct a; cbn [step snd isCastSpell]; try (cbn; lia).
  - unfold handleImageSelect. destruct (fileToGenerativePart file); cbn; lia.
  - unfold handleCastSpell.
    destruct (Js.truthyStr (currentImage st)); [| cbn; lia].
    unfold analyzeImageAndGetSettings.
    destruct (tryAnalyze JSON_parse o); cbn; lia.
  - unfold handleSaveToCollection.
    destruct (Js.truthyStr (currentImage st)); cbn; lia.
  - unfold handleSingleExport.
    destruct (Js.truthyStr (currentImage st)); [| cbn; lia].
    unfold processAndDownloadImage. cbn.
    destruct (imageLoads b s), (context2d b); cbn; lia.
  - unfold handleBatchExport.
    destruct (decide (size (exportSelection st) = 0)); [cbn; lia |].
    rewrite exportLoop_spec. cbn [snd app].
    rewrite requestCount_app, export_segments_no_request. cbn. lia.
  - unfold handleBatchImport.
    destruct (importLoop_log (length (collection st)) 0 files [] []) as [n Hn].
    destruct (importLoop (length (collection st)) 0 files [] [])
      as [newItems log].
    cbn [snd app] in *. subst log.
    rewrite requestCount_app.
    destruct (replicate_error_silent n) as [-> _]. cbn. lia.
  - destruct (collection st !! i); cbn; lia.
Qed.

Lemma run_log_cons (a : Action) (actions : list Action) (st : AppState) :
  (run JSON_parse (a :: actions) st).2
  = (step JSON_parse a st).2
    ++ (run JSON_parse actions (step JSON_parse a st).1).2.
Proof.
  cbn [run]. destruct (step JSON_parse a st) as [st1 log1]. cbn [fst snd].
  now destruct (run JSON_parse actions st1).
Qed.

(** X15.  A session sends the model at most one request per cast-spell
    click and none for any other action. *)
Theorem requests_only_from_cast_spell (actions : list Action)
    (st : AppState) :
  (requestCount (run JSON_parse actions st).2
   ≤ length (List.filter isCastSpell actions))%nat.
Proof.
  revert st. induction actions as [| a actions IH]; intros st.
  - cbn. lia.
  - rewrite run_log_cons, requestCount_app.
    pose proof (step_requestCount a st) as Ha.
    pose proof (IH (step JSON_parse a st).1) as Hrest.
    cbn [List.filter]. destruct (isCastSpell a); cbn [length]; lia.
Qed.

Lemma step_downloads (a : Action) (st : AppState) :
  isExport a = false → downloads (step JSON_parse a st).2 = [].
Proof.
  destruct a; cbn [step snd isExport]; intros H;
    try discriminate H; try reflexivity.
  - unfold handleImageSelect. now destruct (fileToGenerativePart file).
  - unfold handleCastSpell.
    destruct (Js.truthyStr (currentImage st)); [| reflexivity].
    unfold analyzeImageAndGetSettings.
    now destruct (tryAnalyze JSON_parse o).
  - unfold handleSaveToCollection.
    now destruct (Js.truthyStr (currentImage st)).
  - unfold handleBatchImport.
    destruct (importLoop_log (length (collection st)) 0 files [] []) as [n Hn].
    destruct (importLoop (length (collection st)) 0 files [] [])
      as [newItems log].
    cbn [snd app] in *. subst log.
    rewrite downloads_app.
    destruct (replicate_error_silent n) as [_ ->]. reflexivity.
  - now destruct (collection st !! i).
Qed.

(** X16.  Only the two export buttons trigger downloads: a session
    without an export action downloads nothing. *)
Theorem downloads_only_from_export (actions : list Action) (st : AppState) :
  Forall (λ a, isExport a = false) actions →
  downloads (run JSON_parse actions st).2 = [].
Proof.
  revert st. induction actions as [| a actions IH]; intros st Hall.
  - reflexivity.
  - apply Forall_cons in Hall as [Ha Hall].
    rewrite run_log_cons, downloads_app, (step_downloads a st Ha).
    now apply IH.
Qed.

End Traces.

(** ** Which settings the preview depends on *)

Lemma rendered_field (k : string) :
  In k renderedFields → k ∈ renderedFields.
Proof. apply list_elem_of_In. Qed.

Lemma getFilterString_agree (s1 s2 : Js.object) :
  (∀ k : string, k ∈ renderedFields → s1 !! k = s2 !! k) →
  getFilterString s1 = getFilterString s2.
Proof.
  intros H. unfold getFilterString, Js.get.
  rewrite (H "brightness"), (H "contrast"), (H "saturation"), (H "sepia"),
    (H "grayscale"), (H "hueRotate"), (H "blur")
    by (apply rendered_field; cbn; tauto).
  reflexivity.
Qed.

(** X17.  The filter string, in the preview and at export, depends on
    the seven rendered properties only: settings that agree on them give
    the same string, and warmth in particular never changes it. *)
Theorem filter_reads_seven_fields :
  (∀ s1 s2 : Js.object,
      (∀ k : string, k ∈ renderedFields → s1 !! k = s2 !! k) →
      getFilterString s1 = getFilterString s2
      ∧ exportFilter s1 = exportFilter s2)
  ∧ (∀ (s : Js.object) (v : Js.value),
        getFilterString (<["warmth" := v]> s) = getFilterString s
        ∧ exportFilter (<["warmth" := v]> s) = exportFilter s).
Proof.
  split.
  - intros s1 s2 H. split; exact (getFilterString_agree s1 s2 H).
  - intros s v.
    assert (E : getFilterString (<["warmth" := v]> s) = getFilterString s).
    { apply getFilterString_agree. intros k Hk.
      apply lookup_insert_ne. intros <-.
      apply list_elem_of_In in Hk. cbn in Hk.
      repeat (destruct Hk as [Hk | Hk]; [discriminate Hk |]). exact Hk. }
    split; exact E.
Qed.

Section Merges.

Variable JSON_parse : string → option AnalysisResult.

Lemma handleCastSpell_image (o : GenOutcome) (st : AppState) :
  currentImage (handleCastSpell JSON_parse o st).1 = currentImage st.
Proof.
  unfold handleCastSpell.
  destruct (Js.truthyStr (currentImage st)); [| reflexivity].
  unfold analyzeImageAndGetSettings.
  now destruct (tryAnalyze JSON_parse o).
Qed.

(** X18.  A suggestion that carries all seven rendered properties
    decides the preview by itself: after the merge the filter string is
    the one of the suggested settings, whatever the settings were. *)
Theorem full_suggestion_decides_preview (o : GenOutcome) (st : AppState)
    (image : string) (result : AnalysisResult) :
  Js.truthyStr (currentImage st) = Some image →
  tryAnalyze JSON_parse o = inr result →
  (∀ k : string,
      k ∈ renderedFields → is_Some (suggestedSettings result !! k)) →
  let st' := (handleCastSpell JSON_parse o st).1 in
  getFilterString (deref (heap st') (currentSettings st'))
  = getFilterString (suggestedSettings result).
Proof.
  intros Himage Htry Hfull st'. subst st'.
  rewrite (handleCastSpell_success JSON_parse o st image result Himage Htry).
  apply getFilterString_agree. intros k Hk.
  rewrite spread_lookup. now destruct (Hfull k Hk) as [v ->].
Qed.

(** X19.  Two successful suggestions in a row amount to one merge of
    the second suggestion laid over the first, and a suggestion applied
    twice gives the settings it gives when applied once. *)
Theorem merges_compose (o1 o2 : GenOutcome) (st : AppState) (image : string)
    (r1 r2 : AnalysisResult) :
  Js.truthyStr (currentImage st) = Some image →
  tryAnalyze JSON_parse o1 = inr r1 →
  tryAnalyze JSON_parse o2 = inr r2 →
  let st1 := (run JSON_parse [CastSpell o1] st).1 in
  let st2 := (run JSON_parse [CastSpell o1; CastSpell o2] st).1 in
  deref (heap st2) (currentSettings st2)
  = Js.spread (deref (heap st) (currentSettings st))
      (Js.spread (suggestedSettings r1) (suggestedSettings r2))
  ∧ (suggestedSettings r2 = suggestedSettings r1 →
     deref (heap st2) (currentSettings st2)
     = deref (heap st1) (currentSettings st1)).
Proof.
  intros Himage H1 H2 st1 st2.
  assert (E1 : st1 = (handleCastSpell JSON_parse o1 st).1).
  { subst st1. cbn [run step].
    now destruct (handleCastSpell JSON_parse o1 st). }
  assert (E2 : st2 = (handleCastSpell JSON_parse o2 st1).1).
  { subst st2. rewrite run_cons, E1. cbn [run step fst].
    now destruct (handleCastSpell JSON_parse o2
                    (handleCastSpell JSON_parse o1 st).1). }
  assert (Himage1 : Js.truthyStr (currentImage st1) = Some image)
    by (now rewrite E1, handleCastSpell_image).
  assert (D1 : deref (heap st1) (currentSettings st1)
               = Js.spread (deref (heap st) (currentSettings st))
                   (suggestedSettings r1))
    by (rewrite E1; now apply handleCastSpell_success with image).
  assert (D2 : deref (heap st2) (currentSettings st2)
               = Js.spread (deref (heap st1) (currentSettings st1))
                   (suggestedSettings r2))
    by (rewrite E2; now apply handleCastSpell_success with image).
  clearbody st1 st2. rewrite D2, D1. unfold Js.spread. split.
  - now rewrite (assoc_L (∪)).
  - intros ->. now rewrite (assoc_L (∪)), (idemp_L (∪)).
Qed.

End Merges.

(** ** Names without white space *)

Lemma replaceSpaceRuns_keep (r : Js.codeUnits) (inRun : bool) (u : N)
    (s : Js.codeUnits) :
  Js.isSpace u = false →
  Js.replaceSpaceRuns r inRun (u :: s) = u :: Js.replaceSpaceRuns r false s.
Proof. intros H. cbn [Js.replaceSpaceRuns]. now rewrite H. Qed.

Lemma replaceSpaceRuns_first (r : Js.codeUnits) (u : N) (s : Js.codeUnits) :
  Js.isSpace u = true →
  Js.replaceSpaceRuns r false (u :: s) = r ++ Js.replaceSpaceRuns r true s.
Proof. intros H. cbn [Js.replaceSpaceRuns]. now rewrite H. Qed.

Lemma replaceSpaceRuns_clean (r : Js.codeUnits) (inRun : bool)
    (s : Js.codeUnits) :
  Forall (λ u, Js.isSpace u = false) s → Js.replaceSpaceRuns r inRun s = s.
Proof.
  intros H. revert inRun. induction H as [| u s Hu _ IH]; intros inRun.
  - reflexivity.
  - now rewrite (replaceSpaceRuns_keep _ _ _ _ Hu), IH.
Qed.

Lemma replaceSpaceRuns_length (inRun : bool) (s : Js.codeUnits) :
  (length (Js.replaceSpaceRuns (Js.lit "-") inRun s) ≤ length s)%nat.
Proof.
  revert inRun. induction s as [| u s IH]; intros inRun; [reflexivity |].
  cbn [Js.replaceSpaceRuns]. destruct (Js.isSpace u).
  - destruct inRun.
    + specialize (IH true). cbn [length]. lia.
    + specialize (IH true). rewrite length_app.
      change (length (Js.lit "-")) with 1%nat. cbn [length]. lia.
  - specialize (IH false). cbn [length]. lia.
Qed.

(** X20.  The download name is bananalens-, the engine's lower case of
    the hyphenated name, .png.  A name without white space is its own
    hyphenated form, so it reaches the engine's toLowerCase as it is;
    hyphenating a hyphenated name changes nothing, and the hyphenated
    name is never longer than the name.  (Nothing of the kind is said of
    the lower case: the engine may lengthen a name, as it does for
    U+0130.) *)
Theorem slug_of_clean_name (b : Browser) (itemName : Js.codeUnits) :
  downloadName b itemName
  = Js.lit "bananalens-" ++ toLowerCase b (hyphenate itemName)
    ++ Js.lit ".png"
  ∧ (Forall (λ u, Js.isSpace u = false) itemName →
     hyphenate itemName = itemName
     ∧ downloadName b itemName
       = Js.lit "bananalens-" ++ toLowerCase b itemName ++ Js.lit ".png")
  ∧ hyphenate (hyphenate itemName) = hyphenate itemName
  ∧ (length (hyphenate itemName) ≤ length itemName)%nat.
Proof.
  split; [reflexivity |]. split; [| split].
  - intros H. unfold downloadName, hyphenate.
    now rewrite (replaceSpaceRuns_clean _ _ _ H).
  - unfold hyphenate. apply replaceSpaceRuns_clean, replaceSpaceRuns_no_space.
  - apply replaceSpaceRuns_length.
Qed.

(** ** The further properties at sample inputs *)

Lemma slider_endpoints_witness :
  finiteEq (BeforeAfter.positionFor (λ q, q) 5 sampleRect) 0.
Proof.
  refine (proj1 (slider_endpoints (λ q, q) _ _ _ _ 5 sampleRect _ _) _).
  - intros a b H. exact H.
  - reflexivity.
  - reflexivity.
  - reflexivity.
  - reflexivity.
  - reflexivity.
  - vm_compute. discriminate.
Defined.

Lemma slider_monotone_witness :
  finiteLe (BeforeAfter.positionFor (λ q, q) 50 sampleRect)
    (BeforeAfter.positionFor (λ q, q) 120 sampleRect).
Proof.
  refine (slider_monotone (λ q, q) _ 50 120 sampleRect _ _).
  - intros a b H. exact H.
  - reflexivity.
  - vm_compute. discriminate.
Defined.

Lemma slider_run_in_range_witness :
  BeforeAfter.inRange
    (BeforeAfter.sliderPosition
       (sliderRun (λ q, q) sampleDrag BeforeAfter.initial)).
Proof.
  refine (slider_run_in_range (λ q, q) _ _ _ _ sampleDrag
            BeforeAfter.initial _ _).
  - intros a b H. exact H.
  - reflexivity.
  - reflexivity.
  - reflexivity.
  - repeat constructor.
  - split; vm_compute; discriminate.
Defined.

Lemma savedState_reachable : Reachable sampleParse savedState.
Proof.
  unfold savedState.
  apply reach_step; [apply reach_step; [apply reach_initial |] |]; exact I.
Qed.

Lemma selectedState_reachable : Reachable sampleParse selectedState.
Proof.
  unfold selectedState. apply reach_step; [apply savedState_reachable |].
  apply list_elem_of_In. vm_compute. left. reflexivity.
Qed.

Lemma overtakenState_reachable : Reachable sampleParse overtakenState.
Proof.
  unfold overtakenState. apply reach_cast_settle.
  apply (reach_step sampleParse _ ResetImage); [| exact I].
  apply reach_cast_begin.
  - apply reach_step; [apply reach_initial | exact I].
  - vm_compute. now eexists.
Qed.

(** The reset that overtook the request leaves the editor without an
    image, and the settled request still merges its suggestion. *)
Example overtaken_state_sample :
  currentImage overtakenState = None
  ∧ isProcessing overtakenState = false
  ∧ getFilterString
      (deref (heap overtakenState) (currentSettings overtakenState))
    = exampleFilter.
Proof. vm_compute. repeat split. Qed.

Lemma session_references_valid_witness :
  is_Some (heap overtakenState !! currentSettings overtakenState).
Proof.
  exact (proj1 (session_references_valid sampleParse overtakenState
                  overtakenState_reachable)).
Defined.

Lemma selection_within_collection_witness :
  size (exportSelection selectedState) = length (selectedItems selectedState).
Proof.
  apply (proj2 (selection_within_collection sampleParse selectedState
                  selectedState_reachable)).
  vm_compute. repeat constructor. intros H. inversion H.
Defined.

Lemma reset_restores_defaults_witness :
  getFilterString
    (deref (heap (handleResetImage overtakenState))
       (currentSettings (handleResetImage overtakenState)))
  = neutralFilter.
Proof.
  pose proof (reset_restores_defaults sampleParse overtakenState
                overtakenState_reachable) as H.
  cbv zeta in H. apply H.
Defined.

Lemma image_select_round_trip_witness :
  currentImage (handleImageSelect sampleFile initialState).1
  = readAsDataURL sampleFile.
Proof.
  pose proof (image_select_round_trip sampleFile "QUJD" initialState
                eq_refl eq_refl) as [H _].
  cbv zeta in H. apply H. reflexivity.
Defined.

Lemma cast_spell_sends_payload_witness :
  ∃ (rest : list Part) (later : list Event),
    (handleCastSpell sampleParse (Responded (Some sampleText))
       (handleImageSelect sampleFile initialState).1).2
    = EvGenerateContent "gemini-2.5-flash"
        (InlineData "image/jpeg" (Js.Str "QUJD") :: rest) :: later
    ∧ requestCount
        (handleCastSpell sampleParse (Responded (Some sampleText))
           (handleImageSelect sampleFile initialState).1).2 = 1
    ∧ (Js.truthyStr (refImage initialState) = None →
       rest = [Text (if String.eqb (promptText initialState) ""
                     then autoInstruction else promptText initialState)
                 false]).
Proof.
  apply (cast_spell_sends_payload sampleParse sampleFile "QUJD"
           (Responded (Some sampleText)) initialState);
    reflexivity.
Defined.

Lemma save_then_load_round_trip_witness :
  ∃ k : nat,
    currentImage
      (step sampleParse (EditItem k)
         (run sampleParse
            [CastSpell (Responded (Some sampleText)); BatchImport sampleFiles]
            (step sampleParse (SaveToCollection sampleStamp)
               editingState).1).1).1
    = Some sampleImage.
Proof.
  destruct (save_then_load_round_trip sampleParse sampleStamp
              [CastSpell (Responded (Some sampleText));
               BatchImport sampleFiles]
              editingState sampleImage defaultSettings eq_refl eq_refl)
    as [k [H _]].
  exists k. exact H.
Defined.

Lemma downloads_only_from_export_witness :
  downloads
    (run sampleParse
       [ImageSelect sampleFile; CastSpell (Responded (Some sampleText));
        SaveToCollection sampleStamp; ToggleExport "17000000001004242"]
       initialState).2
  = [].
Proof.
  apply downloads_only_from_export. repeat constructor.
Defined.

Lemma full_suggestion_decides_preview_witness :
  getFilterString
    (deref
       (heap (handleCastSpell fullParse (Responded (Some sampleText))
                editingState).1)
       (currentSettings
          (handleCastSpell fullParse (Responded (Some sampleText))
             editingState).1))
  = getFilterString (suggestedSettings fullResult).
Proof.
  apply (full_suggestion_decides_preview fullParse
           (Responded (Some sampleText)) editingState sampleImage fullResult).
  - reflexivity.
  - reflexivity.
  - intros k Hk. apply list_elem_of_In in Hk. cbn in Hk.
    repeat (destruct Hk as [<- | Hk]; [eexists; vm_compute; reflexivity |]).
    contradiction.
Defined.

Lemma merges_compose_witness :
  deref
    (heap (run sampleParse
             [CastSpell (Responded (Some sampleText));
              CastSpell (Responded (Some sampleText))] editingState).1)
    (currentSettings
       (run sampleParse
          [CastSpell (Responded (Some sampleText));
           CastSpell (Responded (Some sampleText))] editingState).1)
  = Js.spread (deref (heap editingState) (currentSettings editingState))
      (Js.spread (suggestedSettings sampleResult)
         (suggestedSettings sampleResult)).
Proof.
  pose proof (merges_compose sampleParse (Responded (Some sampleText))
                (Responded (Some sampleText)) editingState sampleImage
                sampleResult sampleResult eq_refl eq_refl eq_refl) as H.
  cbv zeta in H. exact (proj1 H).
Defined.

Example import_names_sample :
  map (λ f, importName 2 0 f.1) sampleFiles
  = map Js.lit ["beach"; "torn"; "Photo 3"].
Proof. vm_compute. reflexivity. Qed.

Example sample_drag_ends :
  sliderRun (λ q, q) sampleDrag BeforeAfter.initial
  = BeforeAfter.mkState (BeforeAfter.Finite (0 / 200 * 100)) false.
Proof. vm_compute. reflexivity. Qed.

(** * Reference image, imported items and saved names *)


(** X22.  In every state a session reaches, also one in which handlers
    overtook a pending request, import or export, the photos a batch
    import adds all show and export with the neutral filter string,
    whatever collection.length its callback was created with. *)
Theorem imported_items_neutral
    (JSON_parse : string → option AnalysisResult) (collectionLength : nat)
    (files : list (File * Stamp)) (st : AppState) :
  Reachable JSON_parse st →
  let st' := (handleBatchImport collectionLength files st).1 in
  ∃ newItems : list PhotoItem,
    collection st' = newItems ++ collection st
    ∧ Forall (λ item,
                getFilterString (deref (heap st') (settings item))
                = neutralFilter
                ∧ exportFilter (deref (heap st') (settings item))
                  = neutralFilter) newItems.
Proof.
  intros Hr st'. apply reachable_wellFormed in Hr as (Hd & _).
  subst st'. unfold handleBatchImport.
  destruct (importLoop_items collectionLength 0 files [] [])
    as (items & Hitems & Hnew).
  destruct (importLoop collectionLength 0 files [] []) as [newItems log].
  cbn in Hitems. subst newItems. cbn. exists items. split; [reflexivity |].
  eapply Forall_impl; [exact Hnew |].
  intros item [Hset _]. unfold deref. rewrite Hset, Hd. now split.
Qed.

Lemma digit_not_space (u : N) :
  (48 ≤ u)%N ∧ (u ≤ 57)%N → Js.isSpace u = false.
Proof.
  intros [Hlo Hhi]. unfold Js.isSpace.
  repeat match goal with
         | |- context [(?a <=? ?b)%N] =>
             destruct (N.leb_spec a b); try lia
         | |- context [(?a =? ?b)%N] =>
             destruct (N.eqb_spec a b); try lia
         end; reflexivity.
Qed.

Lemma hyphenate_photo (digits : Js.codeUnits) :
  Forall (λ u, Js.isSpace u = false) digits →
  hyphenate (Js.lit "Photo " ++ digits) = Js.lit "Photo-" ++ digits.
Proof.
  intros H. unfold hyphenate.
  change (Js.lit "Photo " ++ digits)
    with (80 :: 104 :: 111 :: 116 :: 111 :: 32 :: digits)%N.
  rewrite !replaceSpaceRuns_keep by reflexivity.
  rewrite replaceSpaceRuns_first by reflexivity.
  rewrite (replaceSpaceRuns_clean _ _ _ H). reflexivity.
Qed.

(** X23.  Saving puts one item at the head of the collection, holding
    the editor's image and its settings object and named Photo and its
    position (the length of the collection plus one).  Its download is
    named bananalens-, the engine's lower case of Photo-<position>,
    .png: bananalens-photo-<position>.png where the engine lowers the P
    and keeps the rest. *)
Theorem saved_item_download_name (b : Browser) (t : Stamp) (st : AppState)
    (image : string) :
  Js.truthyStr (currentImage st) = Some image →
  let st' := (handleSaveToCollection t st).1 in
  let position := Js.showZ (Z.of_nat (length (collection st) + 1)) in
  ∃ item : PhotoItem,
    collection st' = item :: collection st
    ∧ originalUrl item = image
    ∧ settings item = currentSettings st
    ∧ name item = Js.lit ("Photo " +:+ position)
    ∧ downloadName b (name item)
      = Js.lit "bananalens-" ++ toLowerCase b (Js.lit ("Photo-" +:+ position))
        ++ Js.lit ".png"
    ∧ (toLowerCase b (Js.lit ("Photo-" +:+ position))
       = Js.lit ("photo-" +:+ position) →
       downloadName b (name item)
       = Js.lit ("bananalens-photo-" +:+ position +:+ ".png")).
Proof.
  intros Himage st' position. subst st'. unfold handleSaveToCollection.
  rewrite Himage. cbn [fst collection setCollection].
  eexists. split; [reflexivity |]. cbn [originalUrl settings name].
  split; [reflexivity |]. split; [reflexivity |]. split; [reflexivity |].
  fold position.
  assert (E : downloadName b (Js.lit ("Photo " +:+ position))
              = Js.lit "bananalens-"
                ++ toLowerCase b (Js.lit ("Photo-" +:+ position))
                ++ Js.lit ".png").
  { unfold downloadName. fold (hyphenate (Js.lit ("Photo " +:+ position))).
    rewrite !lit_app, hyphenate_photo; [reflexivity |].
    eapply Forall_impl; [apply showZ_nat_units |].
    intros u Hu. now apply digit_not_space. }
  split; [exact E |]. intros Hlower. rewrite E, Hlower, !lit_app.
  reflexivity.
Qed.


Lemma imported_items_neutral_witness :
  ∃ newItems : list PhotoItem,
    collection (handleBatchImport 0 sampleFiles savedState).1
    = newItems ++ collection savedState
    ∧ Forall (λ item,
                getFilterString
                  (deref (heap (handleBatchImport 0 sampleFiles savedState).1)
                     (settings item))
                = neutralFilter
                ∧ exportFilter
                    (deref
                       (heap (handleBatchImport 0 sampleFiles savedState).1)
                       (settings item))
                  = neutralFilter) newItems.
Proof.
  exact (imported_items_neutral sampleParse 0 sampleFiles savedState
           savedState_reachable).
Defined.

Lemma saved_item_download_name_witness :
  ∃ item : PhotoItem,
    collection (handleSaveToCollection sampleStamp editingState).1
    = item :: collection editingState
    ∧ name item = Js.lit "Photo 1"
    ∧ downloadName loadingBrowser (name item)
      = Js.lit "bananalens-photo-1.png".
Proof.
  destruct (saved_item_download_name loadingBrowser sampleStamp editingState
              sampleImage eq_refl)
    as (item & Hhead & _ & _ & Hname & _ & Hdownload).
  exists item. split; [exact Hhead |]. split; [exact Hname |].
  apply Hdownload. vm_compute. reflexivity.
Defined.
